(** * Befunge interpreter (befunge.py): shallow embedding and verified properties

    The interpreter of [befunge.py] is a Python generator ([Lexer.tokens])
    consumed by a [for] loop ([BefungeInterpreter.interpret]).  Both share the
    lexer object: commands run by the loop move the cursor, turn it and
    rewrite the grid between two resumptions of the generator.  The embedding
    keeps that shape: the generator is a transition function on its
    suspension points, the loop body is a function on tokens, and a machine
    step composes the two over one shared state.

    Python data is kept as the code has it: integers are [Z], a character is
    its code point, a [str] is the list of its code points, a Python list is
    a Rocq list in the same order (the data stack grows at the END), and
    subscripting follows Python (negative indices count from the end,
    anything else out of range raises [IndexError]).  The [logging] calls
    touch nothing the interpreter reads; what is kept of them is what they
    can raise before they log: the two messages of [interpret] that format
    the data stack eagerly (["... Stack = {}".format(self._data)]) raise
    [ValueError] when the stack holds an integer whose decimal text exceeds
    the interpreter's digit limit, as ["{:d}".format] does.  The other
    messages format tokens, commands, characters and the cursor position,
    which in a run stays within two cells of the grid: the read that
    follows a move off the grid ends the run.  [random.choice] is a function of
    the raw draws of the random generator, which the machine below receives
    as a stream. *)

From Stdlib Require Import ZArith List Lia Bool String Ascii DecimalString.
From stdpp Require Import base list gmap.
Import ListNotations.

#[local] Open Scope Z_scope.

(** ** Python primitives *)

Module Py.

(** A character is its Unicode code point; a [str] is a list of them. *)
Abbreviation char := Z (only parsing).
Abbreviation str := (list Z) (only parsing).

Inductive SyntaxMessage :=
| ProgramEndedInStringMode
| IllegalCharacter (c : char).

(** The exceptions the program can raise. *)
Inductive Exception :=
| SyntaxError (msg : SyntaxMessage)
| IndexError
| ValueError
| OverflowError.

Inductive result (A : Type) :=
| OK (a : A)
| Raise (e : Exception).
Arguments OK {A} a.
Arguments Raise {A} e.

Definition bind {A B} (m : result A) (k : A -> result B) : result B :=
  match m with
  | OK a => k a
  | Raise e => Raise e
  end.

(** [try m except IndexError: h] *)
Definition except_IndexError {A} (m : result A) (h : result A) : result A :=
  match m with
  | Raise IndexError => h
  | other => other
  end.

(** The list position a subscript [i] denotes in a list of length [len],
    [None] when Python raises [IndexError]. *)
Definition index (len : nat) (i : Z) : option nat :=
  if 0 <=? i then
    if i <? Z.of_nat len then Some (Z.to_nat i) else None
  else
    if - Z.of_nat len <=? i then Some (Z.to_nat (Z.of_nat len + i)) else None.

(** [l[i]] *)
Definition getitem {A} (l : list A) (i : Z) : result A :=
  match index (length l) i with
  | Some n => match l !! n with
              | Some a => OK a
              | None => Raise IndexError
              end
  | None => Raise IndexError
  end.

(** [l[i] = a] *)
Definition setitem {A} (l : list A) (i : Z) (a : A) : result (list A) :=
  match index (length l) i with
  | Some n => OK (<[n := a]> l)
  | None => Raise IndexError
  end.

(** [l.pop()]: the last element and the list without it. *)
Definition pop {A} (l : list A) : result (A * list A) :=
  match rev l with
  | [] => Raise IndexError
  | a :: r => OK (a, rev r)
  end.

(** [l.append(a)] *)
Definition append {A} (l : list A) (a : A) : list A := l ++ [a].

(** [chr(v)]: a code point below 0x110000; outside, [ValueError] while [v]
    fits a C int and [OverflowError] beyond. *)
Definition chr (v : Z) : result char :=
  if (0 <=? v) && (v <? 1114112) then OK v
  else if (- 2147483648 <=? v) && (v <? 2147483648) then Raise ValueError
  else Raise OverflowError.

(** [ord(c)] of a one-character string. *)
Definition ord (c : char) : Z := c.

(** Zero digits of the decimal-digit blocks of the Unicode database (14.0,
    CPython 3.11): the ten code points from each are the digits 0 to 9. *)
Definition decimal_zeros : list Z :=
  [48; 1632; 1776; 1984; 2406; 2534; 2662; 2790; 2918; 3046; 3174; 3302;
   3430; 3558; 3664; 3792; 3872; 4160; 4240; 6112; 6160; 6470; 6608; 6784;
   6800; 6992; 7088; 7232; 7248; 42528; 43216; 43264; 43472; 43504; 43600;
   44016; 65296; 66720; 68912; 69734; 69872; 69942; 70096; 70384; 70736;
   70864; 71248; 71360; 71472; 71904; 72016; 72784; 73040; 73120; 92768;
   92864; 93008; 120782; 120792; 120802; 120812; 120822; 123200; 123632;
   125264; 130032].

(** Code points that are digits without being decimal (superscripts,
    circled digits and the like), as inclusive ranges. *)
Definition other_digit_ranges : list (Z * Z) :=
  [(178, 179); (185, 185); (4969, 4977); (6618, 6618); (8304, 8304);
   (8308, 8313); (8320, 8329); (9312, 9320); (9332, 9340); (9352, 9360);
   (9450, 9450); (9461, 9469); (9471, 9471); (10102, 10110);
   (10112, 10120); (10122, 10130); (68160, 68163); (69216, 69224);
   (69714, 69722); (127232, 127242)].

Definition decimal_value (c : char) : option Z :=
  match List.find (fun z => (z <=? c) && (c <? z + 10)) decimal_zeros with
  | Some z => Some (c - z)
  | None => None
  end.

(** [c.isdigit()] *)
Definition isdigit (c : char) : bool :=
  match decimal_value c with
  | Some _ => true
  | None => existsb (fun r => (fst r <=? c) && (c <=? snd r)) other_digit_ranges
  end.

(** [int(c)] of a one-character string for which [isdigit] holds: the
    decimal value, or [ValueError] for a digit that is not decimal. *)
Definition int (c : char) : result Z :=
  match decimal_value c with
  | Some n => OK n
  | None => Raise ValueError
  end.

(** A Rocq string literal (ASCII) as a Python [str]. *)
Definition of_string (s : string) : str :=
  map (fun a => Z.of_N (N_of_ascii a)) (list_ascii_of_string s).

(** A source text written line by line, the lines separated by a line
    feed. *)
Fixpoint source (lines : list string) : str :=
  match lines with
  | [] => []
  | [line] => of_string line
  | line :: rest => of_string line ++ 10 :: source rest
  end.

(** The decimal text of [v], as [str(v)] and ["{:d}".format(v)] give it
    when they give one. *)
Definition format_d (v : Z) : str :=
  of_string (NilZero.string_of_int (Z.to_int v)).

(** [sys.get_int_max_str_digits()], as CPython 3.11 sets it by default. *)
Definition int_max_str_digits : Z := 4300.

(** The least integer whose decimal text is longer than the limit. *)
Definition int_str_bound : Z := Eval vm_compute in 10 ^ int_max_str_digits.

(** Whether the decimal text of [v], its sign apart, is within the digit
    limit; beyond it the conversion of an integer to text is refused. *)
Definition within_str_digits (v : Z) : bool := Z.abs v <? int_str_bound.

(** ["{:d}".format(v)] *)
Definition format_int (v : Z) : result str :=
  if within_str_digits v then OK (format_d v) else Raise ValueError.

(** ["... {}".format(l)] for a list of integers, for what it raises: the
    text of the list holds the text of each integer. *)
Definition format_list (l : list Z) : result unit :=
  if forallb within_str_digits l then OK tt else Raise ValueError.

(** ["{:c}".format(v)] *)
Definition format_c (v : Z) : result str :=
  if (0 <=? v) && (v <? 1114112) then OK [v] else Raise OverflowError.

(** ["".join(l)] *)
Definition join (l : list str) : str := concat l.

(** [s.split('\n')] *)
Fixpoint split_lines (s : str) : list str :=
  match s with
  | [] => [[]]
  | c :: s' =>
      if c =? 10 then [] :: split_lines s'
      else match split_lines s' with
           | line :: lines => (c :: line) :: lines
           | [] => [[c]]
           end
  end.

(** [random.choice(l)] on the raw draw [r]. *)
Definition choice {A} (r : nat) (l : list A) : option A :=
  l !! (r `mod` length l)%nat.

End Py.

Import Py.

(** Sequencing of calls that may raise is stdpp's [x ← m; k]. *)
#[global] Instance result_bind : MBind result := fun A B k m => Py.bind m k.
#[global] Instance result_ret : MRet result := @OK.

(** ** Commands: the classes and their registry *)

(** The concrete subclasses of [Command].  The abstract ones ([AimCommand],
    [BinaryOperator], [UnaryOperator], [OutputCommand]) have [token = None],
    never enter [Command.dict()] and are never instantiated; their [execute]
    is the code shared by their subclasses below. *)
Inductive Command :=
| NoopCommand
| HeadRight | HeadLeft | HeadUp | HeadDown
| Plus | Minus | Multiply | Div | GreaterThan | Mod
| Not
| OutputInteger | OutputAscii
| Duplicate
| ChooseHorizontalDirection | ChooseVerticalDirection | ChooseRandomDirection
| Swap | Discard | Skip | Put | Get
| End_ (* the class [End]; the name alone closes a module in Rocq *).

#[global] Instance Command_eq_dec : EqDecision Command.
Proof. solve_decision. Defined.

(** The code point of an ASCII character literal. *)
Definition code (a : ascii) : char := Z.of_N (N_of_ascii a).

(** The double quote that toggles string mode. *)
Definition quote : char := 34.

(** The class attribute [token]. *)
Definition token (cls : Command) : char :=
  match cls with
  | NoopCommand => code " "
  | HeadRight => code ">"
  | HeadLeft => code "<"
  | HeadUp => code "^"
  | HeadDown => code "v"
  | Plus => code "+"
  | Minus => code "-"
  | Multiply => code "*"
  | Div => code "/"
  | GreaterThan => code "`"
  | Mod => code "%"
  | Not => code "!"
  | OutputInteger => code "."
  | OutputAscii => code ","
  | Duplicate => code ":"
  | ChooseHorizontalDirection => code "_"
  | ChooseVerticalDirection => code "|"
  | ChooseRandomDirection => code "?"
  | Swap => 92
  | Discard => code "$"
  | Skip => code "#"
  | Put => code "p"
  | Get => code "g"
  | End_ => code "@"
  end.

(** [Command.get_subclasses()], in the order the generator yields them
    (descendants before their parent, classes in definition order), without
    the abstract classes that [dict] filters out. *)
Definition get_subclasses : list Command :=
  [NoopCommand; HeadRight; HeadLeft; HeadUp; HeadDown;
   Plus; Minus; Multiply; Div; GreaterThan; Mod; Not;
   OutputInteger; OutputAscii; Duplicate;
   ChooseHorizontalDirection; ChooseVerticalDirection; ChooseRandomDirection;
   Swap; Discard; Skip; Put; Get; End_].

(** [Command.dict()]: the comprehension inserts in order, a later class
    replacing an earlier one with the same token. *)
Definition dict : gmap Z Command :=
  foldl (fun d cls => <[token cls := cls]> d) ∅ get_subclasses.

(** The class attributes [dx, dy] of the [AimCommand] subclasses; [(0, 0)] is
    the default of [AimCommand] itself. *)
Definition aim (cls : Command) : Z * Z :=
  match cls with
  | HeadRight => (1, 0)
  | HeadLeft => (-1, 0)
  | HeadUp => (0, -1)
  | HeadDown => (0, 1)
  | _ => (0, 0)
  end.

(** ** Lexing *)

Inductive Token :=
| EofToken
| DigitToken (value : Z)
| StringToken (value : char)
| CommandToken (value : char).

Record Lexer := mkLexer {
  program : list (list Z);
  xpos : Z;
  ypos : Z;
  dx : Z;
  dy : Z
}.

(** [Lexer()]: the class attributes and the empty program of [__init__]. *)
Definition Lexer_init : Lexer :=
  {| program := []; xpos := 0; ypos := 0; dx := 1; dy := 0 |}.

(** [self.command_lexemes], the keys of [Command.dict()]. *)
Definition command_lexemes (c : char) : bool :=
  match dict !! c with
  | Some _ => true
  | None => false
  end.

Definition read (self : Lexer) (s : str) : Lexer :=
  {| program := program self ++ split_lines s;
     xpos := xpos self; ypos := ypos self; dx := dx self; dy := dy self |}.

Definition advance (self : Lexer) : Lexer :=
  {| program := program self;
     xpos := xpos self + dx self; ypos := ypos self + dy self;
     dx := dx self; dy := dy self |}.

(** [self.program[y][x]] *)
Definition cell (self : Lexer) (y x : Z) : result char :=
  row ← getitem (program self) y; getitem row x.

Definition current_character (self : Lexer) : result char :=
  cell self (ypos self) (xpos self).

(** Where the generator [tokens] is suspended between two [next] calls. *)
Inductive Suspension :=
| AtLoop            (* not started, or at the top of [while True] *)
| AfterToken        (* at [yield DigitToken]/[yield CommandToken]: [advance] comes next *)
| InString          (* in [string()], at the test of its [while] *)
| AfterStringToken  (* at [yield StringToken]: [advance] comes next *)
| AfterEof.         (* at [yield EofToken()]: [break] comes next *)

(** What running the generator from a suspension point does up to the next
    cell it reads: it yields (the lexer is unchanged), moves on silently with
    an updated lexer, finishes, or raises. *)
Inductive Resumed :=
| Yields (t : Token) (k : Suspension)
| Goes (self : Lexer) (k : Suspension)
| Stops
| Raises (e : Exception).

(** [Lexer.tokens], with [Lexer.string] for the suspension points inside
    [yield from self.string()]. *)
Definition tokens (k : Suspension) (self : Lexer) : Resumed :=
  match k with
  | AtLoop =>
      match cell self (ypos self) (xpos self) with
      | Raise IndexError => Yields EofToken AfterEof
      | Raise e => Raises e
      | OK char =>
          if isdigit char then
            match int char with
            | OK n => Yields (DigitToken n) AfterToken
            | Raise e => Raises e
            end
          else if char =? quote then Goes (advance self) InString
          else if command_lexemes char then Yields (CommandToken char) AfterToken
          else Raises (SyntaxError (IllegalCharacter char))
      end
  | AfterToken => Goes (advance self) AtLoop
  | InString =>
      match current_character self with
      | Raise IndexError => Raises (SyntaxError ProgramEndedInStringMode)
      | Raise e => Raises e
      | OK char =>
          if char =? quote then Goes (advance self) AtLoop
          else Yields (StringToken char) AfterStringToken
      end
  | AfterStringToken => Goes (advance self) InString
  | AfterEof => Stops
  end.

(** ** The interpreter object *)

Record BefungeInterpreter := mkInterpreter {
  lexer : Lexer;
  _data : list Z;
  _output : list (list Z)
}.

(** [BefungeInterpreter()] *)
Definition BefungeInterpreter_init : BefungeInterpreter :=
  {| lexer := Lexer_init; _data := []; _output := [] |}.

Definition set_lexer (self : BefungeInterpreter) (lx : Lexer) : BefungeInterpreter :=
  {| lexer := lx; _data := _data self; _output := _output self |}.

Definition set_data (self : BefungeInterpreter) (d : list Z) : BefungeInterpreter :=
  {| lexer := lexer self; _data := d; _output := _output self |}.

Definition pop (self : BefungeInterpreter) : result (Z * BefungeInterpreter) :=
  '(a, d) ← Py.pop (_data self); OK (a, set_data self d).

(** The tuple is built left to right: the first component is popped first. *)
Definition pop2 (self : BefungeInterpreter) : result (Z * Z * BefungeInterpreter) :=
  '(a, self) ← pop self; '(b, self) ← pop self; OK (a, b, self).

Definition push (self : BefungeInterpreter) (value : Z) : BefungeInterpreter :=
  set_data self (append (_data self) value).

Definition peek (self : BefungeInterpreter) : result Z :=
  getitem (_data self) (-1).

Definition output (self : BefungeInterpreter) (value : str) : BefungeInterpreter :=
  {| lexer := lexer self; _data := _data self;
     _output := append (_output self) value |}.

(** ** Executing commands *)

(** [AimCommand.execute] for a class whose attributes are [d]. *)
Definition AimCommand_execute (d : Z * Z) (self : BefungeInterpreter) : BefungeInterpreter :=
  set_lexer self
    {| program := program (lexer self);
       xpos := xpos (lexer self); ypos := ypos (lexer self);
       dx := d.1; dy := d.2 |}.

(** [operate] of the subclasses of [BinaryOperator] and of [Not]; [//] and
    [%] of Python are the floored [Z.div] and [Z.modulo]. *)
Definition operate (cls : Command) (a b : Z) : Z :=
  match cls with
  | Plus => a + b
  | Minus => b - a
  | Multiply => a * b
  | Div => if a =? 0 then 0 else b / a
  | GreaterThan => if b >? a then 1 else 0
  | Mod => if a =? 0 then 0 else b `mod` a
  | _ => 0
  end.

Definition BinaryOperator_execute (cls : Command) (self : BefungeInterpreter)
  : result BefungeInterpreter :=
  '(a, b, self) ← pop2 self; OK (push self (operate cls a b)).

(** [program[y][x] = c]: the row object is fetched, then updated in place. *)
Definition set_cell (self : Lexer) (y x : Z) (c : char) : result Lexer :=
  row ← getitem (program self) y;
  row' ← setitem row x c;
  program' ← setitem (program self) y row';
  OK {| program := program'; xpos := xpos self; ypos := ypos self;
        dx := dx self; dy := dy self |}.

(** [cls(interpreter).execute()].  [r] is the raw draw that the random
    generator hands to [random.choice] should this command ask for one. *)
Definition execute (r : nat) (cls : Command) (self : BefungeInterpreter)
  : result BefungeInterpreter :=
  match cls with
  | NoopCommand => OK self
  | HeadRight | HeadLeft | HeadUp | HeadDown =>
      OK (AimCommand_execute (aim cls) self)
  | Plus | Minus | Multiply | Div | GreaterThan | Mod =>
      BinaryOperator_execute cls self
  | Not =>
      '(a, self) ← pop self; OK (push self (if a =? 0 then 1 else 0))
  | OutputInteger =>
      '(v, self) ← pop self; s ← format_int v; OK (output self s)
  | OutputAscii =>
      '(v, self) ← pop self; s ← format_c v; OK (output self s)
  | Duplicate =>
      value ← except_IndexError (peek self) (OK 0); OK (push self value)
  | ChooseHorizontalDirection =>
      '(value, self) ← pop self;
      let command_class := if value =? 0 then HeadRight else HeadLeft in
      OK (AimCommand_execute (aim command_class) self)
  | ChooseVerticalDirection =>
      '(value, self) ← pop self;
      let command_class := if value =? 0 then HeadDown else HeadUp in
      OK (AimCommand_execute (aim command_class) self)
  | ChooseRandomDirection =>
      match choice r [HeadLeft; HeadRight; HeadUp; HeadDown] with
      | Some command_class => OK (AimCommand_execute (aim command_class) self)
      | None => Raise IndexError
      end
  | Swap =>
      '(last, self) ← pop self;
      '(penultimate, self) ← except_IndexError (pop self) (OK (0, self));
      OK (push (push self last) penultimate)
  | Discard =>
      '(_, self) ← pop self; OK self
  | Skip =>
      OK (set_lexer self (advance (lexer self)))
  | Put =>
      '(y, x, self) ← pop2 self;
      '(v, self) ← pop self;
      c ← chr v;
      lx ← set_cell (lexer self) y x c;
      OK (set_lexer self lx)
  | Get =>
      '(y, x, self) ← pop2 self;
      value ← cell (lexer self) y x;
      OK (push self (ord value))
  | End_ => OK self
  end.

(** [Parser.get_command]: the class registered for the token's character,
    [NoopCommand] for a character that has none. *)
Definition get_command (value : char) : Command :=
  match dict !! value with
  | Some cls => cls
  | None => NoopCommand
  end.

(** ** The interpreter loop *)

(** The running program: the interpreter object, the suspension point of
    the token generator the loop iterates over, and the number of draws
    taken from the random generator so far. *)
Record Machine := mkMachine {
  interpreter : BefungeInterpreter;
  generator : Suspension;
  draws : nat
}.

Inductive Outcome :=
| Continue (m : Machine)            (* the loop goes on *)
| Return (s : list Z) (self : BefungeInterpreter)
                                    (* [interpret] returned [s], leaving [self] *)
| Abort (e : Exception).            (* an exception left [interpret] *)

Section Interpret.

(** The random generator: its [n]-th raw draw. *)
Variable random : nat -> nat.

(** The loop body of [interpret] on one token.  [None] is the [break].  The
    messages logged for the halt command and for the end-of-program token
    format the stack before anything else happens. *)
Definition on_token (t : Token) (self : BefungeInterpreter) (n : nat)
  : result (option (BefungeInterpreter * nat)) :=
  match t with
  | DigitToken value => OK (Some (push self value, n))
  | StringToken value => OK (Some (push self (ord value), n))
  | CommandToken value =>
      let command := get_command value in
      if decide (command = End_) then
        _ ← format_list (_data self); OK None
      else
        self ← execute (random n) command self;
        OK (Some (self, if decide (command = ChooseRandomDirection) then S n else n))
  | EofToken => _ ← format_list (_data self); OK (Some (self, n))
  end.

(** One transition: the generator runs from its suspension point to the
    next cell it reads; a token it yields goes through the loop body
    before the generator is resumed. *)
Definition step (m : Machine) : Outcome :=
  let self := interpreter m in
  match tokens (generator m) (lexer self) with
  | Raises e => Abort e
  | Stops => Return (join (_output self)) self
  | Goes lx k =>
      Continue {| interpreter := set_lexer self lx; generator := k; draws := draws m |}
  | Yields t k =>
      match on_token t self (draws m) with
      | Raise e => Abort e
      | OK None => Return (join (_output self)) self
      | OK (Some (self', n)) =>
          Continue {| interpreter := self'; generator := k; draws := n |}
      end
  end.

(** At most [fuel] transitions; [Continue m] when the loop is still
    running after them, at [m]. *)
Fixpoint run (fuel : nat) (m : Machine) : Outcome :=
  match fuel with
  | O => Continue m
  | S fuel =>
      match step m with
      | Continue m' => run fuel m'
      | done => done
      end
  end.

(** The machine at the start of the loop of [interpret(str)]. *)
Definition start (str : list Z) : Machine :=
  {| interpreter := set_lexer BefungeInterpreter_init
                      (read (lexer BefungeInterpreter_init) str);
     generator := AtLoop;
     draws := 0 |}.

(** [interpret(str)], observed for [fuel] transitions. *)
Definition interpret (fuel : nat) (str : list Z) : Outcome :=
  run fuel (start str).

(** The number of draws taken from the random generator by the end of a
    run of at most [fuel] transitions. *)
Fixpoint draws_taken (fuel : nat) (m : Machine) : nat :=
  match fuel with
  | O => draws m
  | S fuel =>
      match step m with
      | Continue m' => draws_taken fuel m'
      | _ => draws m
      end
  end.

End Interpret.

(** ** Vocabulary of the statements *)

(** The four unit steps along an axis. *)
Definition cardinal (d : Z * Z) : Prop :=
  d = (1, 0) \/ d = (-1, 0) \/ d = (0, 1) \/ d = (0, -1).

Definition direction (self : Lexer) : Z * Z := (dx self, dy self).

(** The two conditions under which the scanner raises [SyntaxError]: normal
    scanning reads a character that is no digit, no quote and no command;
    string mode reads outside the grid. *)
Definition syntax_condition (m : Machine) (msg : SyntaxMessage) : Prop :=
  let lx := lexer (interpreter m) in
  (generator m = AtLoop /\
   exists c, current_character lx = OK c /\ isdigit c = false /\ c <> quote /\
             command_lexemes c = false /\ msg = IllegalCharacter c)
  \/
  (generator m = InString /\ current_character lx = Raise IndexError /\
   msg = ProgramEndedInStringMode).

(** The position in a list of length [len] that a subscript within
    [-len .. len-1] denotes: negative subscripts count from the end. *)
Definition wrapped (len : nat) (i : Z) : nat :=
  Z.to_nat (if i <? 0 then Z.of_nat len + i else i).

(** The text whose [split('\n')] is [lines]: the lines with a line feed
    between two of them. *)
Fixpoint unlines (lines : list (list Z)) : list Z :=
  match lines with
  | [] => []
  | [line] => line
  | line :: rest => line ++ 10 :: unlines rest
  end.

(** The shape of a grid: the lengths of its rows, in order. *)
Definition grid_shape (p : list (list Z)) : list nat := map length p.

(** The commands whose [execute] starts with a [pop]. *)
Definition popping_commands : list Command :=
  [Plus; Minus; Multiply; Div; GreaterThan; Mod; Not; OutputInteger; OutputAscii;
   ChooseHorizontalDirection; ChooseVerticalDirection; Swap; Discard; Put; Get].

(** ** Sanity checks: the programs of the module's own tests *)

Example interpret_digits :
  exists self, interpret (fun _ => O) 20 (of_string "123...") = Return (of_string "321") self.
Proof. eexists. vm_compute. reflexivity. Qed.

Example interpret_factorial :
  exists self,
    interpret (fun _ => O) 2000 (source ["08>:1-:v v *_$.@ "; "  ^    _$>\:^"]%string) = Return (of_string "40320") self.
Proof. eexists. vm_compute. reflexivity. Qed.

Example interpret_snake :
  exists self,
    interpret (fun _ => O) 200 (source [">987v>.v"; "v456<  :"; ">321 ^ _@"]%string) = Return (of_string "123456789") self.
Proof. eexists. vm_compute. reflexivity. Qed.

Example getitem_negative :
  getitem [1; 2; 3] (-3) = OK 1 /\ getitem [1; 2; 3] (-4) = Raise IndexError /\
  getitem [1; 2; 3] 3 = Raise IndexError.
Proof. repeat split. Qed.

Example digit_not_decimal : isdigit 178 = true /\ int 178 = Raise ValueError.
Proof. split; reflexivity. Qed.


(** ** The data stack *)

Lemma Py_pop_app {A} (l : list A) (a : A) : Py.pop (l ++ [a]) = OK (a, l).
Proof. unfold Py.pop. rewrite rev_unit, rev_involutive. reflexivity. Qed.

Lemma Py_pop_nil {A} : Py.pop (@nil A) = Raise IndexError.
Proof. reflexivity. Qed.

Lemma Py_pop_inv {A} (l : list A) a r : Py.pop l = OK (a, r) -> l = r ++ [a].
Proof.
  unfold Py.pop. intros H.
  destruct (rev l) as [|a' r'] eqn:E; [discriminate|].
  injection H as <- <-.
  rewrite <- (rev_involutive l), E. reflexivity.
Qed.

Lemma Py_pop_raises {A} (l : list A) e : Py.pop l = Raise e -> e = IndexError /\ l = [].
Proof.
  unfold Py.pop. intros H.
  destruct (rev l) as [|a' r'] eqn:E; [|discriminate].
  injection H as <-. split; [reflexivity|].
  rewrite <- (rev_involutive l), E. reflexivity.
Qed.

Lemma pop_app lx out rest a :
  pop (mkInterpreter lx (rest ++ [a]) out) = OK (a, mkInterpreter lx rest out).
Proof. unfold pop. cbn [_data]. rewrite Py_pop_app. reflexivity. Qed.

Lemma pop_nil lx out : pop (mkInterpreter lx [] out) = Raise IndexError.
Proof. reflexivity. Qed.

Lemma pop2_app lx out rest a b :
  pop2 (mkInterpreter lx (rest ++ [b; a]) out) = OK (a, b, mkInterpreter lx rest out).
Proof.
  unfold pop2.
  change (rest ++ [b; a]) with (rest ++ [b] ++ [a]).
  rewrite app_assoc, pop_app. cbn. rewrite pop_app. reflexivity.
Qed.

Lemma pop_raises self e : pop self = Raise e -> e = IndexError.
Proof.
  unfold pop. destruct (Py.pop (_data self)) as [[a d]|e'] eqn:E; cbn.
  - discriminate.
  - intros [= <-]. apply Py_pop_raises in E. tauto.
Qed.

Lemma pop2_raises self e : pop2 self = Raise e -> e = IndexError.
Proof.
  unfold pop2.
  destruct (pop self) as [[a s1]|e1] eqn:E1; cbn.
  - destruct (pop s1) as [[b s2]|e2] eqn:E2; cbn; [discriminate|].
    intros [= <-]. eapply pop_raises, E2.
  - intros [= <-]. eapply pop_raises, E1.
Qed.

Lemma list_two_last {A} (l : list A) :
  (2 <= length l)%nat -> exists rest b a, l = rest ++ [b; a].
Proof.
  intros H.
  destruct (rev l) as [|a [|b r]] eqn:E.
  - apply (f_equal (@length A)) in E. rewrite length_rev in E. cbn in E. lia.
  - apply (f_equal (@length A)) in E. rewrite length_rev in E. cbn in E. lia.
  - exists (rev r), b, a.
    rewrite <- (rev_involutive l), E. cbn.
    rewrite <- app_assoc. reflexivity.
Qed.

Lemma index_minus_one (n : nat) : index (S n) (-1) = Some n.
Proof.
  unfold index.
  destruct (Z.leb_spec 0 (-1)); [lia|].
  destruct (Z.leb_spec (- Z.of_nat (S n)) (-1)); [|lia].
  f_equal. lia.
Qed.

Lemma getitem_last {A} (l : list A) (a : A) : getitem (l ++ [a]) (-1) = OK a.
Proof.
  unfold getitem.
  rewrite length_app, Nat.add_comm. cbn [length Nat.add].
  rewrite index_minus_one.
  rewrite list_lookup_middle by reflexivity. reflexivity.
Qed.

Lemma peek_app lx out rest a : peek (mkInterpreter lx (rest ++ [a]) out) = OK a.
Proof. apply getitem_last. Qed.

(** ** Arithmetic and stack commands *)

(** C4: on a stack with at least two elements, [/] and [%] with a zero
    first-popped operand [a] push exactly 0 and do not raise; with [a]
    nonzero, [/] pushes the floor of [b/a] and [%] pushes Python's [b % a],
    the remainder of that floored division (its sign follows [a]). *)
Theorem Div_Mod_stack_effect (r : nat) lx out rest (b a : Z) :
  let self := mkInterpreter lx (rest ++ [b; a]) out in
  (a = 0 ->
   execute r Div self = OK (mkInterpreter lx (rest ++ [0]) out) /\
   execute r Mod self = OK (mkInterpreter lx (rest ++ [0]) out)) /\
  (a <> 0 ->
   exists q m,
     execute r Div self = OK (mkInterpreter lx (rest ++ [q]) out) /\
     execute r Mod self = OK (mkInterpreter lx (rest ++ [m]) out) /\
     b = a * q + m /\
     (0 < a -> 0 <= m < a) /\ (a < 0 -> a < m <= 0)).
Proof.
  intros self. subst self. split.
  - intros ->. cbn [execute]. unfold BinaryOperator_execute.
    rewrite pop2_app. split; reflexivity.
  - intros Ha. exists (b / a), (b `mod` a).
    cbn [execute]. unfold BinaryOperator_execute. rewrite pop2_app.
    cbn. unfold push, set_data, append. cbn.
    destruct (Z.eqb_spec a 0) as [->|_]; [contradiction|].
    repeat split.
    + apply Z.div_mod. assumption.
    + apply Z.mod_pos_bound. assumption.
    + apply Z.mod_pos_bound. assumption.
    + apply Z.mod_neg_bound. assumption.
    + apply Z.mod_neg_bound. assumption.
Qed.

Lemma Div_Mod_stack_effect_witness :
  execute 0 Div (mkInterpreter Lexer_init [4; 7; 0] []) = OK (mkInterpreter Lexer_init [4; 0] []) /\
  execute 0 Mod (mkInterpreter Lexer_init [4; 7; 0] []) = OK (mkInterpreter Lexer_init [4; 0] []) /\
  exists q m,
    execute 0 Div (mkInterpreter Lexer_init [4; -7; 2] []) = OK (mkInterpreter Lexer_init [4; q] []) /\
    execute 0 Mod (mkInterpreter Lexer_init [4; -7; 2] []) = OK (mkInterpreter Lexer_init [4; m] []) /\
    -7 = 2 * q + m /\ (0 < 2 -> 0 <= m < 2) /\ (2 < 0 -> 2 < m <= 0).
Proof.
  pose proof (Div_Mod_stack_effect 0 Lexer_init [] [4] 7 0) as [Hz _].
  pose proof (Div_Mod_stack_effect 0 Lexer_init [] [4] (-7) 2) as [_ Hn].
  destruct (Hz eq_refl) as [Hd Hm].
  split; [exact Hd|]. split; [exact Hm|].
  apply Hn. lia.
Defined.

(** C5 (as the code has it): [:] never raises: on an empty stack it pushes
    exactly one 0, on a non-empty stack it pushes a copy of the top without
    consuming it.  [\] on a stack of one element [a] leaves [a, 0], on a
    stack of two or more it exchanges the top two; on an empty stack its
    first, unguarded pop raises [IndexError]. *)
Theorem Duplicate_Swap_defaults (r : nat) lx out rest (b a : Z) :
  execute r Duplicate (mkInterpreter lx [] out) = OK (mkInterpreter lx [0] out) /\
  execute r Duplicate (mkInterpreter lx (rest ++ [a]) out)
    = OK (mkInterpreter lx (rest ++ [a; a]) out) /\
  execute r Swap (mkInterpreter lx [a] out) = OK (mkInterpreter lx [a; 0] out) /\
  execute r Swap (mkInterpreter lx (rest ++ [b; a]) out)
    = OK (mkInterpreter lx (rest ++ [a; b]) out) /\
  execute r Swap (mkInterpreter lx [] out) = Raise IndexError.
Proof.
  repeat split.
  - cbn [execute]. rewrite peek_app. cbn. unfold push, set_data, append. cbn.
    rewrite <- app_assoc. reflexivity.
  - cbn [execute].
    change (rest ++ [b; a]) with (rest ++ [b] ++ [a]).
    rewrite app_assoc, pop_app. cbn. rewrite pop_app. cbn.
    unfold push, set_data, append. cbn.
    rewrite <- app_assoc. reflexivity.
Qed.

(** C5, as stated, fails: [\] on an empty stack raises. *)
Lemma Swap_empty_stack_raises :
  execute 0 Swap BefungeInterpreter_init = Raise IndexError.
Proof. reflexivity. Qed.

(** C7: each binary operator, run on a stack of at least two elements, pops
    exactly two values and pushes exactly one: the stack is one shorter, and
    the lexer (grid, cursor, direction) and the output are unchanged. *)
Theorem BinaryOperator_frame (r : nat) (cls : Command) (self : BefungeInterpreter) :
  In cls [Plus; Minus; Multiply; Div; Mod; GreaterThan] ->
  (2 <= length (_data self))%nat ->
  exists self' rest b a,
    execute r cls self = OK self' /\
    _data self = rest ++ [b; a] /\
    _data self' = rest ++ [operate cls a b] /\
    S (length (_data self')) = length (_data self) /\
    lexer self' = lexer self /\
    _output self' = _output self.
Proof.
  intros Hcls Hlen.
  destruct (list_two_last _ Hlen) as (rest & b & a & Hd).
  destruct self as [lx d out]. cbn [_data] in *. subst d.
  exists (mkInterpreter lx (rest ++ [operate cls a b]) out), rest, b, a.
  assert (He : execute r cls (mkInterpreter lx (rest ++ [b; a]) out)
               = BinaryOperator_execute cls (mkInterpreter lx (rest ++ [b; a]) out)).
  { cbn in Hcls. intuition (subst; reflexivity). }
  rewrite He. unfold BinaryOperator_execute. rewrite pop2_app.
  cbn. repeat split.
  rewrite !length_app. cbn. lia.
Qed.

Lemma BinaryOperator_frame_witness :
  exists self' rest b a,
    execute 0 Minus (mkInterpreter Lexer_init [1; 9; 4] [[49]]) = OK self' /\
    [1; 9; 4] = rest ++ [b; a] /\
    _data self' = rest ++ [operate Minus a b] /\
    S (length (_data self')) = 3%nat /\
    lexer self' = Lexer_init /\
    _output self' = [[49]].
Proof.
  apply (BinaryOperator_frame 0 Minus (mkInterpreter Lexer_init [1; 9; 4] [[49]])).
  - cbn. tauto.
  - cbn. lia.
Defined.

(** ** Subscripts and the grid *)

Lemma index_wrapped (len : nat) (i : Z) :
  - Z.of_nat len <= i < Z.of_nat len -> index len i = Some (wrapped len i).
Proof.
  intros H. unfold index, wrapped.
  destruct (Z.leb_spec 0 i), (Z.ltb_spec i 0); try lia.
  - destruct (Z.ltb_spec i (Z.of_nat len)); [reflexivity|lia].
  - destruct (Z.leb_spec (- Z.of_nat len) i); [reflexivity|lia].
Qed.

Lemma index_out_of_range (len : nat) (i : Z) :
  i < - Z.of_nat len \/ Z.of_nat len <= i -> index len i = None.
Proof.
  intros H. unfold index.
  destruct (Z.leb_spec 0 i).
  - destruct (Z.ltb_spec i (Z.of_nat len)); [lia|reflexivity].
  - destruct (Z.leb_spec (- Z.of_nat len) i); [lia|reflexivity].
Qed.

Lemma wrapped_lt (len : nat) (i : Z) :
  - Z.of_nat len <= i < Z.of_nat len -> (wrapped len i < len)%nat.
Proof. intros H. unfold wrapped. destruct (Z.ltb_spec i 0); lia. Qed.

Lemma getitem_wrapped {A} (l : list A) (i : Z) (a : A) :
  - Z.of_nat (length l) <= i < Z.of_nat (length l) ->
  l !! wrapped (length l) i = Some a ->
  getitem l i = OK a.
Proof.
  intros Hi Ha. unfold getitem. rewrite index_wrapped, Ha by assumption. reflexivity.
Qed.

Lemma getitem_out_of_range {A} (l : list A) (i : Z) :
  i < - Z.of_nat (length l) \/ Z.of_nat (length l) <= i -> getitem l i = Raise IndexError.
Proof. intros H. unfold getitem. rewrite index_out_of_range by assumption. reflexivity. Qed.

Lemma getitem_raises {A} (l : list A) (i : Z) e : getitem l i = Raise e -> e = IndexError.
Proof.
  unfold getitem. destruct (index (length l) i); [destruct (l !! n)|]; congruence.
Qed.

Lemma setitem_wrapped {A} (l : list A) (i : Z) (a : A) :
  - Z.of_nat (length l) <= i < Z.of_nat (length l) ->
  setitem l i a = OK (<[wrapped (length l) i := a]> l).
Proof. intros Hi. unfold setitem. rewrite index_wrapped by assumption. reflexivity. Qed.

Lemma setitem_raises {A} (l : list A) (i : Z) a e : setitem l i a = Raise e -> e = IndexError.
Proof. unfold setitem. destruct (index (length l) i); congruence. Qed.

Lemma cell_raises lx y x e : cell lx y x = Raise e -> e = IndexError.
Proof.
  unfold cell. destruct (getitem (program lx) y) as [row|e'] eqn:E; cbn.
  - apply getitem_raises.
  - intros [= <-]. eapply getitem_raises, E.
Qed.

Section Grid.

Variables (lx : Lexer) (y x : Z) (row : list Z).

Hypothesis row_in_range :
  - Z.of_nat (length (program lx)) <= y < Z.of_nat (length (program lx)).
Hypothesis row_found : program lx !! wrapped (length (program lx)) y = Some row.
Hypothesis column_in_range : - Z.of_nat (length row) <= x < Z.of_nat (length row).

Lemma cell_wrapped (c : Z) :
  row !! wrapped (length row) x = Some c -> cell lx y x = OK c.
Proof using row_in_range row_found column_in_range.
  intros Hc. unfold cell.
  rewrite (getitem_wrapped _ _ row) by assumption. cbn.
  apply getitem_wrapped; assumption.
Qed.

Lemma cell_defined : exists c, row !! wrapped (length row) x = Some c.
Proof using column_in_range.
  apply lookup_lt_is_Some_2, wrapped_lt. assumption.
Qed.

Lemma set_cell_wrapped (c : Z) :
  set_cell lx y x c =
    OK {| program := <[wrapped (length (program lx)) y :=
                         <[wrapped (length row) x := c]> row]> (program lx);
          xpos := xpos lx; ypos := ypos lx; dx := dx lx; dy := dy lx |}.
Proof using row_in_range row_found column_in_range.
  unfold set_cell.
  rewrite (getitem_wrapped _ _ row) by assumption. cbn.
  rewrite setitem_wrapped by assumption. cbn.
  rewrite setitem_wrapped by assumption. reflexivity.
Qed.

Lemma cell_after_set_cell (c : Z) (lx' : Lexer) :
  set_cell lx y x c = OK lx' -> cell lx' y x = OK c.
Proof using row_in_range row_found column_in_range.
  rewrite set_cell_wrapped. intros [= <-].
  unfold cell. cbn [program].
  rewrite (getitem_wrapped _ _ (<[wrapped (length row) x := c]> row)).
  - cbn. apply getitem_wrapped.
    + rewrite length_insert. assumption.
    + rewrite length_insert. apply list_lookup_insert_eq, wrapped_lt. assumption.
  - rewrite length_insert. assumption.
  - rewrite length_insert. apply list_lookup_insert_eq, wrapped_lt. assumption.
Qed.

End Grid.

Lemma chr_valid (v : Z) : 0 <= v < 1114112 -> chr v = OK v.
Proof.
  intros H. unfold chr.
  destruct (Z.leb_spec 0 v), (Z.ltb_spec v 1114112); try lia. reflexivity.
Qed.

Lemma chr_raises v e : chr v = Raise e -> e = ValueError \/ e = OverflowError.
Proof.
  unfold chr.
  destruct ((0 <=? v) && (v <? 1114112)); [discriminate|].
  destruct ((-2147483648 <=? v) && (v <? 2147483648)); intros [= <-]; tauto.
Qed.

Lemma execute_Put r lx out rest v x y :
  execute r Put (mkInterpreter lx (rest ++ [v; x; y]) out)
  = (c ← chr v; lx' ← set_cell lx y x c; OK (mkInterpreter lx' rest out)).
Proof.
  cbn [execute].
  change (rest ++ [v; x; y]) with (rest ++ [v] ++ [x; y]).
  rewrite app_assoc, pop2_app. cbn. rewrite pop_app. reflexivity.
Qed.

Lemma execute_Get r lx out rest x y :
  execute r Get (mkInterpreter lx (rest ++ [x; y]) out)
  = (value ← cell lx y x; OK (mkInterpreter lx (rest ++ [value]) out)).
Proof. cbn [execute]. rewrite pop2_app. reflexivity. Qed.

(** C6: for an in-bounds cell (x, y) and a valid character code [v], [p]
    run with v, x, y on the stack (y on top) succeeds, and [g] run afterwards
    with x, y on the stack pushes exactly [v]. *)
Theorem Put_Get_roundtrip (r r' : nat) lx out rest (x y v : Z) (row : list Z) :
  0 <= y < Z.of_nat (length (program lx)) ->
  program lx !! Z.to_nat y = Some row ->
  0 <= x < Z.of_nat (length row) ->
  0 <= v < 1114112 ->
  exists lx',
    execute r Put (mkInterpreter lx (rest ++ [v; x; y]) out)
      = OK (mkInterpreter lx' rest out) /\
    forall rest' out',
      execute r' Get (mkInterpreter lx' (rest' ++ [x; y]) out')
        = OK (mkInterpreter lx' (rest' ++ [v]) out').
Proof.
  intros Hy Hrow Hx Hv.
  assert (Hwy : wrapped (length (program lx)) y = Z.to_nat y).
  { unfold wrapped. destruct (Z.ltb_spec y 0); [lia|reflexivity]. }
  assert (Hy' : - Z.of_nat (length (program lx)) <= y < Z.of_nat (length (program lx))) by lia.
  assert (Hx' : - Z.of_nat (length row) <= x < Z.of_nat (length row)) by lia.
  rewrite <- Hwy in Hrow.
  destruct (set_cell lx y x v) as [lx'|e] eqn:Hset.
  - exists lx'. split.
    + rewrite execute_Put, chr_valid by assumption. cbn. rewrite Hset. reflexivity.
    + intros rest' out'. rewrite execute_Get.
      rewrite (cell_after_set_cell lx y x row Hy' Hrow Hx' v lx' Hset). reflexivity.
  - rewrite (set_cell_wrapped lx y x row Hy' Hrow Hx') in Hset. discriminate.
Qed.

Lemma Put_Get_roundtrip_witness :
  exists lx',
    execute 0 Put (mkInterpreter (read Lexer_init (source ["12"; "345"]%string)) ([7] ++ [65; 2; 1]) [])
      = OK (mkInterpreter lx' [7] []) /\
    forall rest' out',
      execute 0 Get (mkInterpreter lx' (rest' ++ [2; 1]) out')
        = OK (mkInterpreter lx' (rest' ++ [65]) out').
Proof.
  apply (Put_Get_roundtrip 0 0 (read Lexer_init (source ["12"; "345"]%string)) [] [7] 2 1 65 (of_string "345")).
  - split; [lia | reflexivity].
  - reflexivity.
  - split; [lia | reflexivity].
  - lia.
Defined.

(** C10: a subscript from [-len] to [-1] is not out of bounds, it counts
    from the end.  For a row index [y] and a column index [x] in
    [-len .. len-1] of their dimension, the cell read is the one at the
    wrapped position; normal scanning with the cursor there does not yield
    the end-of-program token, at column [-1] it reads the row's last
    character; [g] pushes the code of the wrapped cell and [p] writes the
    wrapped cell, neither failing. *)
Theorem negative_subscripts_wrap (r : nat) (lx : Lexer) (y x : Z) (row : list Z) :
  - Z.of_nat (length (program lx)) <= y < Z.of_nat (length (program lx)) ->
  program lx !! wrapped (length (program lx)) y = Some row ->
  - Z.of_nat (length row) <= x < Z.of_nat (length row) ->
  exists c,
    row !! wrapped (length row) x = Some c /\
    cell lx y x = OK c /\
    (x = -1 -> last row = Some c) /\
    (ypos lx = y -> xpos lx = x -> forall k, tokens AtLoop lx <> Yields EofToken k) /\
    (ypos lx = y -> xpos lx = x ->
     tokens AtLoop lx
     = if isdigit c then
         match int c with
         | OK n => Yields (DigitToken n) AfterToken
         | Raise e => Raises e
         end
       else if c =? quote then Goes (advance lx) InString
       else if command_lexemes c then Yields (CommandToken c) AfterToken
       else Raises (SyntaxError (IllegalCharacter c))) /\
    (forall rest out,
       execute r Get (mkInterpreter lx (rest ++ [x; y]) out)
         = OK (mkInterpreter lx (rest ++ [c]) out)) /\
    (forall rest out v,
       0 <= v < 1114112 ->
       execute r Put (mkInterpreter lx (rest ++ [v; x; y]) out)
         = OK (mkInterpreter
                 {| program := <[wrapped (length (program lx)) y :=
                                   <[wrapped (length row) x := v]> row]> (program lx);
                    xpos := xpos lx; ypos := ypos lx; dx := dx lx; dy := dy lx |}
                 rest out)).
Proof.
  intros Hy Hrow Hx.
  destruct (cell_defined x row Hx) as [c Hc].
  pose proof (cell_wrapped lx y x row Hy Hrow Hx c Hc) as Hcell.
  exists c. repeat split.
  - assumption.
  - assumption.
  - intros ->. rewrite last_lookup. rewrite <- Hc. f_equal.
    unfold wrapped. cbn. lia.
  - intros Hyp Hxp k. unfold tokens. rewrite Hyp, Hxp, Hcell.
    destruct (isdigit c); [destruct (int c); discriminate|].
    destruct (c =? quote); [discriminate|].
    destruct (command_lexemes c); discriminate.
  - intros Hyp Hxp. unfold tokens. rewrite Hyp, Hxp, Hcell. reflexivity.
  - intros rest out. rewrite execute_Get, Hcell. reflexivity.
  - intros rest out v Hv. rewrite execute_Put, chr_valid by assumption. cbn.
    rewrite (set_cell_wrapped lx y x row Hy Hrow Hx). reflexivity.
Qed.

Lemma negative_subscripts_wrap_witness :
  cell (mkLexer [of_string "12"; of_string "345"] (-1) (-1) (-1) 0) (-1) (-1)
  = OK (code "5") /\
  last (of_string "345") = Some (code "5") /\
  tokens AtLoop (mkLexer [of_string "12"; of_string "345"] (-1) (-1) (-1) 0)
  = Yields (DigitToken 5) AfterToken /\
  execute 0 Get (mkInterpreter (mkLexer [of_string "12"; of_string "345"] (-1) (-1) (-1) 0)
                               ([] ++ [-1; -1]) [])
  = OK (mkInterpreter (mkLexer [of_string "12"; of_string "345"] (-1) (-1) (-1) 0)
                      ([] ++ [code "5"]) []).
Proof.
  destruct (negative_subscripts_wrap 0
              (mkLexer [of_string "12"; of_string "345"] (-1) (-1) (-1) 0)
              (-1) (-1) (of_string "345"))
    as (c & Hc & Hcell & Hlast & _ & Htok & Hget & _).
  - split; [apply Z.leb_le | apply Z.ltb_lt]; reflexivity.
  - reflexivity.
  - split; [apply Z.leb_le | apply Z.ltb_lt]; reflexivity.
  - assert (c = code "5") as -> by (vm_compute in Hc; injection Hc as <-; reflexivity).
    split; [exact Hcell|]. split; [apply Hlast; reflexivity|].
    split; [apply (Htok eq_refl eq_refl) | apply Hget].
Defined.

(** ** End of the program *)

Lemma cell_out_of_bounds (lx : Lexer) :
  (Z.of_nat (length (program lx)) <= ypos lx \/
   exists row, getitem (program lx) (ypos lx) = OK row /\
               Z.of_nat (length row) <= xpos lx) ->
  cell lx (ypos lx) (xpos lx) = Raise IndexError.
Proof.
  intros [Hy | (row & Hrow & Hx)]; unfold cell.
  - rewrite getitem_out_of_range by lia. reflexivity.
  - rewrite Hrow. cbn. apply getitem_out_of_range. lia.
Qed.

(** X19: when normal scanning reads a cell whose row index is at least the
    row count, or whose column index is at least the length of its row, the
    scanner yields the end-of-program token once and then stops.  The loop
    first formats the stack for its log message: when every integer on the
    stack is within the digit limit the run returns the output units joined
    so far, the interpreter being left as it was; otherwise that message
    raises [ValueError]. *)
Theorem scan_past_bounds_ends_program (random : nat -> nat) (m : Machine) :
  generator m = AtLoop ->
  (Z.of_nat (length (program (lexer (interpreter m)))) <= ypos (lexer (interpreter m)) \/
   exists row, getitem (program (lexer (interpreter m))) (ypos (lexer (interpreter m))) = OK row /\
               Z.of_nat (length row) <= xpos (lexer (interpreter m))) ->
  tokens AtLoop (lexer (interpreter m)) = Yields EofToken AfterEof /\
  tokens AfterEof (lexer (interpreter m)) = Stops /\
  forall fuel,
    run random (S (S fuel)) m
    = if forallb within_str_digits (_data (interpreter m))
      then Return (join (_output (interpreter m))) (interpreter m)
      else Abort ValueError.
Proof.
  intros Hgen Hout.
  apply cell_out_of_bounds in Hout.
  assert (Htok : tokens AtLoop (lexer (interpreter m)) = Yields EofToken AfterEof).
  { unfold tokens. rewrite Hout. reflexivity. }
  split; [exact Htok|]. split; [reflexivity|].
  intros fuel. cbn [run]. unfold step at 1. rewrite Hgen, Htok. cbn [on_token].
  unfold format_list. destruct (forallb within_str_digits (_data (interpreter m))).
  - unfold step. cbn. reflexivity.
  - reflexivity.
Qed.

Lemma scan_past_bounds_ends_program_witness :
  run (fun _ => O) 2
    (mkMachine (mkInterpreter (mkLexer [of_string "1."] 2 0 1 0) [] [of_string "1"]) AtLoop 0)
  = if forallb within_str_digits []
    then Return (of_string "1")
           (mkInterpreter (mkLexer [of_string "1."] 2 0 1 0) [] [of_string "1"])
    else Abort ValueError.
Proof.
  refine (proj2 (proj2 (scan_past_bounds_ends_program (fun _ => O)
           (mkMachine (mkInterpreter (mkLexer [of_string "1."] 2 0 1 0) [] [of_string "1"])
                      AtLoop 0) _ _)) O).
  - reflexivity.
  - right. exists (of_string "1."). split; [reflexivity | cbn; lia].
Defined.

(** X20: when a command token resolves to the halt command [@], the loop
    stops without executing it.  It first formats the stack for its log
    message: when every integer on the stack is within the digit limit
    [interpret] returns the output joined so far, the interpreter (stack and
    grid) being left as it was; otherwise that message raises [ValueError].
    The command's own [execute] does nothing.  The program whose only cell
    is [@] returns the empty string with an empty stack and its grid
    intact. *)
Theorem End_stops_the_run (random : nat -> nat) :
  (forall m c k,
     tokens (generator m) (lexer (interpreter m)) = Yields (CommandToken c) k ->
     get_command c = End_ ->
     forall fuel,
       run random (S fuel) m
       = if forallb within_str_digits (_data (interpreter m))
         then Return (join (_output (interpreter m))) (interpreter m)
         else Abort ValueError) /\
  (forall r self, execute r End_ self = OK self) /\
  (forall fuel,
     interpret random (S fuel) (of_string "@")
     = Return [] (mkInterpreter (mkLexer [[code "@"]] 0 0 1 0) [] [])).
Proof.
  repeat split.
  intros m c k Htok Hcmd fuel.
  cbn [run]. unfold step. rewrite Htok. cbn [on_token]. rewrite Hcmd.
  unfold format_list. destruct (forallb within_str_digits (_data (interpreter m)));
    reflexivity.
Qed.

Lemma End_stops_the_run_witness :
  run (fun _ => O) 1
    (mkMachine (mkInterpreter (mkLexer [of_string "1@"] 1 0 1 0) [1] []) AtLoop 0)
  = if forallb within_str_digits [1]
    then Return [] (mkInterpreter (mkLexer [of_string "1@"] 1 0 1 0) [1] [])
    else Abort ValueError.
Proof.
  refine (proj1 (End_stops_the_run (fun _ => O))
            (mkMachine (mkInterpreter (mkLexer [of_string "1@"] 1 0 1 0) [1] []) AtLoop 0)
            (code "@") AfterToken _ _ O).
  - reflexivity.
  - reflexivity.
Defined.

(** ** The direction of the cursor *)

Ltac unfold_execute H :=
  cbn [execute] in H;
  unfold BinaryOperator_execute, pop2, pop, peek, except_IndexError in H;
  unfold mbind, result_bind, Py.bind in H.

Lemma choice_of_four {A} (r : nat) (a b c d : A) :
  exists e, choice r [a; b; c; d] = Some e /\ (e = a \/ e = b \/ e = c \/ e = d).
Proof.
  unfold choice. cbn [length].
  assert (H : (r `mod` 4 < 4)%nat) by (apply Nat.mod_upper_bound; lia).
  destruct (r `mod` 4)%nat as [|[|[|[|n]]]]; [eauto 10 ..|lia].
Qed.

Lemma set_cell_direction lx y x c lx' :
  set_cell lx y x c = OK lx' -> direction lx' = direction lx.
Proof.
  unfold set_cell, mbind, result_bind, Py.bind. intros H.
  repeat case_match; simplify_eq. reflexivity.
Qed.

Lemma cardinal_unit (d : Z * Z) :
  cardinal d <->
  (d.1 = 0 /\ (d.2 = 1 \/ d.2 = -1)) \/ (d.2 = 0 /\ (d.1 = 1 \/ d.1 = -1)).
Proof.
  destruct d as [a b]. unfold cardinal. cbn. split.
  - intros [H|[H|[H|H]]]; injection H as -> ->; lia.
  - intros [[-> [->| ->]]|[-> [->| ->]]]; tauto.
Qed.

Lemma execute_direction (r : nat) (cls : Command) (self self' : BefungeInterpreter) :
  execute r cls self = OK self' ->
  direction (lexer self') = direction (lexer self) \/ cardinal (direction (lexer self')).
Proof.
  intros H. unfold cardinal.
  destruct cls; unfold_execute H.
  all: try (injection H as <-; cbn; tauto).
  - repeat case_match; simplify_eq; cbn; tauto.
  - repeat case_match; simplify_eq; cbn; tauto.
  - repeat case_match; simplify_eq; cbn; tauto.
  - repeat case_match; simplify_eq; cbn; tauto.
  - repeat case_match; simplify_eq; cbn; tauto.
  - repeat case_match; simplify_eq; cbn; tauto.
  - repeat case_match; simplify_eq; cbn; tauto.
  - repeat case_match; simplify_eq; cbn; tauto.
  - repeat case_match; simplify_eq; cbn; tauto.
  - repeat case_match; simplify_eq; cbn; tauto.
  - repeat case_match; simplify_eq; cbn; tauto.
  - repeat case_match; simplify_eq; cbn; tauto.
  - destruct (choice_of_four r HeadLeft HeadRight HeadUp HeadDown) as (e & -> & He) in H.
    injection H as <-. cbn.
    destruct He as [->|[->|[->| ->]]]; cbn; tauto.
  - repeat case_match; simplify_eq; cbn; tauto.
  - repeat case_match; simplify_eq; cbn; tauto.
  - repeat case_match; simplify_eq.
    left. cbn. eapply set_cell_direction. eassumption.
  - repeat case_match; simplify_eq; cbn; tauto.
Qed.

Lemma tokens_direction k lx lx' k' :
  tokens k lx = Goes lx' k' -> direction lx' = direction lx.
Proof.
  unfold tokens. intros H.
  repeat case_match; simplify_eq; reflexivity.
Qed.

Ltac stack_log H :=
  unfold format_list, mbind, result_bind, Py.bind in H;
  destruct (forallb within_str_digits _); [|try discriminate].

Section Invariant.

Variable random : nat -> nat.

Lemma on_token_direction t self n self' n' :
  on_token random t self n = OK (Some (self', n')) ->
  direction (lexer self') = direction (lexer self) \/ cardinal (direction (lexer self')).
Proof.
  destruct t; cbn [on_token]; intros H.
  - stack_log H. injection H as <- <-. tauto.
  - injection H as <- <-. tauto.
  - injection H as <- <-. tauto.
  - revert H. generalize (get_command value). intros command H.
    destruct (decide (command = End_)); [stack_log H; discriminate|].
    unfold mbind, result_bind, Py.bind in H.
    destruct (execute (random n) command self) as [s|e] eqn:E; [|discriminate].
    destruct (decide (command = ChooseRandomDirection));
      injection H as <- <-; eapply execute_direction, E.
Qed.

Lemma step_cardinal m m' :
  cardinal (direction (lexer (interpreter m))) ->
  step random m = Continue m' ->
  cardinal (direction (lexer (interpreter m'))).
Proof.
  intros Hm. unfold step.
  destruct (tokens (generator m) (lexer (interpreter m))) as [t k|lx k| |e] eqn:Htok.
  - destruct (on_token random t (interpreter m) (draws m)) as [[[s n]|]|e] eqn:Hon;
      try discriminate.
    intros [= <-]. cbn.
    destruct (on_token_direction _ _ _ _ _ Hon) as [-> | H]; assumption.
  - intros [= <-]. cbn. rewrite (tokens_direction _ _ _ _ Htok). assumption.
  - discriminate.
  - discriminate.
Qed.

Lemma step_Return m s self : step random m = Return s self -> self = interpreter m.
Proof.
  unfold step. intros H. repeat case_match; simplify_eq; reflexivity.
Qed.

Lemma run_cardinal n : forall m,
  cardinal (direction (lexer (interpreter m))) ->
  (forall m', run random n m = Continue m' ->
              cardinal (direction (lexer (interpreter m')))) /\
  (forall s self, run random n m = Return s self ->
                  cardinal (direction (lexer self))).
Proof.
  induction n as [|n IH]; intros m Hm; cbn [run].
  - split; [intros m' [= <-]; assumption | discriminate].
  - destruct (step random m) as [m1|s1 self1|e] eqn:Hstep.
    + apply IH. eapply step_cardinal; eassumption.
    + split; [discriminate|]. intros s self [= <- <-].
      apply step_Return in Hstep. subst. assumption.
    + split; discriminate.
Qed.

End Invariant.

(** C8: the direction of the cursor is one of the four cardinal unit
    vectors at every point of every run.  It starts as (1, 0); a command
    either leaves it alone or sets it to one of the four; so in every
    machine a run reaches, and in the interpreter a run returns from,
    exactly one of dx, dy is nonzero and that one is 1 or -1. *)
Theorem direction_is_cardinal (random : nat -> nat) (str : list Z) :
  direction (lexer (interpreter (start str))) = (1, 0) /\
  (forall r cls self self',
     execute r cls self = OK self' ->
     direction (lexer self') = direction (lexer self) \/
     cardinal (direction (lexer self'))) /\
  (forall n m,
     run random n (start str) = Continue m ->
     cardinal (direction (lexer (interpreter m))) /\
     ((dx (lexer (interpreter m)) = 0 /\
       (dy (lexer (interpreter m)) = 1 \/ dy (lexer (interpreter m)) = -1)) \/
      (dy (lexer (interpreter m)) = 0 /\
       (dx (lexer (interpreter m)) = 1 \/ dx (lexer (interpreter m)) = -1)))) /\
  (forall n s self,
     interpret random n str = Return s self ->
     cardinal (direction (lexer self))).
Proof.
  assert (H0 : cardinal (direction (lexer (interpreter (start str))))).
  { left. reflexivity. }
  split; [reflexivity|]. split; [apply execute_direction|]. split.
  - intros n m Hrun.
    destruct (run_cardinal random n _ H0) as [Hc _].
    specialize (Hc m Hrun). split; [exact Hc|].
    apply cardinal_unit in Hc. exact Hc.
  - intros n s self Hrun.
    destruct (run_cardinal random n _ H0) as [_ Hr].
    eapply Hr, Hrun.
Qed.

Lemma direction_is_cardinal_witness :
  cardinal (0, 1) /\ ((0 = 0 /\ (1 = 1 \/ 1 = -1)) \/ (1 = 0 /\ (0 = 1 \/ 0 = -1))).
Proof.
  destruct (direction_is_cardinal (fun _ => O) (source ["v"; "@"]%string)) as (_ & _ & H & _).
  apply (H 2%nat
           (mkMachine (mkInterpreter (mkLexer [of_string "v"; of_string "@"] 0 1 0 1) [] [])
                      AtLoop 0)).
  reflexivity.
Defined.

(** ** Randomness *)

Lemma execute_without_draw (r1 r2 : nat) (cls : Command) (self : BefungeInterpreter) :
  cls <> ChooseRandomDirection -> execute r1 cls self = execute r2 cls self.
Proof. intros H. destruct cls; try reflexivity. contradiction. Qed.

Lemma execute_ChooseRandomDirection (r : nat) (self : BefungeInterpreter) :
  exists self', execute r ChooseRandomDirection self = OK self'.
Proof.
  cbn [execute].
  destruct (choice_of_four r HeadLeft HeadRight HeadUp HeadDown) as (e & -> & _).
  eauto.
Qed.

Section Draws.

Variables random1 random2 : nat -> nat.

Lemma step_draws m m' :
  step random1 m = Continue m' -> (draws m <= draws m')%nat.
Proof.
  unfold step. intros H.
  destruct (tokens (generator m) (lexer (interpreter m))) as [t k|lx k| |e];
    try discriminate.
  - destruct t; cbn [on_token] in H.
    + stack_log H. injection H as <-. cbn. lia.
    + injection H as <-. cbn. lia.
    + injection H as <-. cbn. lia.
    + revert H. generalize (get_command value). intros command H.
      destruct (decide (command = End_)); [stack_log H; discriminate|].
      unfold mbind, result_bind, Py.bind in H.
      destruct (execute _ _ _); [|discriminate].
      destruct (decide (command = ChooseRandomDirection));
        injection H as <-; cbn; lia.
  - injection H as <-. cbn. lia.
Qed.

Lemma draws_taken_ge fuel : forall m, (draws m <= draws_taken random1 fuel m)%nat.
Proof.
  induction fuel as [|fuel IH]; intros m; cbn [draws_taken]; [lia|].
  destruct (step random1 m) as [m'| |] eqn:E; try lia.
  pose proof (step_draws _ _ E). specialize (IH m'). lia.
Qed.

(** A transition reads the random generator only at the index [draws m],
    and only when it takes a draw. *)
Lemma step_agree m :
  (forall m', step random1 m = Continue m' -> (draws m < draws m')%nat ->
              random1 (draws m) = random2 (draws m)) ->
  step random2 m = step random1 m.
Proof.
  intros H. unfold step in *.
  destruct (tokens (generator m) (lexer (interpreter m))) as [t k|lx k| |e];
    try reflexivity.
  destruct t; try reflexivity. cbn [on_token] in *.
  revert H. generalize (get_command value). intros command H.
  destruct (decide (command = End_)); [reflexivity|].
  destruct (decide (command = ChooseRandomDirection)) as [Hc|Hc].
  - subst command.
    destruct (execute_ChooseRandomDirection (random1 (draws m)) (interpreter m))
      as [self' Hex].
    rewrite Hex in H. unfold mbind, result_bind, Py.bind in H.
    rewrite <- (H _ eq_refl); [reflexivity | cbn [draws]; lia].
  - rewrite (execute_without_draw (random2 (draws m)) (random1 (draws m))) by assumption.
    reflexivity.
Qed.

Lemma run_agree fuel : forall m,
  (forall i, (draws m <= i < draws_taken random1 fuel m)%nat -> random1 i = random2 i) ->
  run random2 fuel m = run random1 fuel m.
Proof.
  induction fuel as [|fuel IH]; intros m H; [reflexivity|].
  cbn [run draws_taken] in *.
  assert (Hs : step random2 m = step random1 m).
  { apply step_agree. intros m' Hm' Hlt. apply H.
    rewrite Hm'. pose proof (draws_taken_ge fuel m'). lia. }
  rewrite Hs.
  destruct (step random1 m) as [m'| |] eqn:E; try reflexivity.
  apply IH. intros i Hi. apply H.
  pose proof (step_draws _ _ E). lia.
Qed.

End Draws.

(** C9 (as the code has it): [interpret] is a function of the source string
    and of the draws [random.choice] hands to the [?] commands it executes.
    Two runs on the same source whose random generators agree on the draws
    the first run takes produce the same result: the same string, the same
    exception, or the same machine when still running.  A run that takes no
    draw is therefore the same under every random generator. *)
Theorem interpret_depends_on_draws (random1 random2 : nat -> nat) (fuel : nat) (str : list Z) :
  (forall i, (i < draws_taken random1 fuel (start str))%nat -> random1 i = random2 i) ->
  interpret random2 fuel str = interpret random1 fuel str.
Proof.
  intros H. apply run_agree. intros i Hi. apply H. lia.
Qed.

Lemma interpret_depends_on_draws_witness :
  interpret (fun i => match i with O => 1 | _ => 3 end)%nat 10 (of_string "?1.@")
  = interpret (fun _ => 1%nat) 10 (of_string "?1.@").
Proof.
  apply (interpret_depends_on_draws (fun _ => 1%nat)
           (fun i => match i with O => 1 | _ => 3 end)%nat 10 (of_string "?1.@")).
  intros i Hi.
  assert (Hd : draws_taken (fun _ => 1%nat) 10 (start (of_string "?1.@")) = 1%nat)
    by reflexivity.
  rewrite Hd in Hi. destruct i; [reflexivity | lia].
Defined.

(** C9, as stated, fails: the same source returns the empty string when the
    draw sends the cursor left (onto the [@] at column -1) and ["1"] when it
    sends it right. *)
Lemma interpret_not_deterministic :
  exists self0 self1,
    interpret (fun _ => 0%nat) 10 (of_string "?1.@") = Return [] self0 /\
    interpret (fun _ => 1%nat) 10 (of_string "?1.@") = Return (of_string "1") self1.
Proof. do 2 eexists. split; vm_compute; reflexivity. Qed.

(** ** Exceptions *)

Lemma format_c_raises v e : format_c v = Raise e -> e = OverflowError.
Proof. unfold format_c. case_match; congruence. Qed.

Lemma format_int_raises v e : format_int v = Raise e -> e = ValueError.
Proof. unfold format_int. case_match; congruence. Qed.

Lemma set_cell_raises lx y x c e : set_cell lx y x c = Raise e -> e = IndexError.
Proof.
  unfold set_cell, mbind, result_bind, Py.bind. intros H.
  destruct (getitem (program lx) y) as [row|e1] eqn:E1.
  - destruct (setitem row x c) as [row'|e2] eqn:E2.
    + destruct (setitem (program lx) y row') as [p|e3] eqn:E3; [discriminate|].
      injection H as <-. eapply setitem_raises, E3.
    + injection H as <-. eapply setitem_raises, E2.
  - injection H as <-. eapply getitem_raises, E1.
Qed.

Ltac raised_by_callee :=
  repeat match goal with
    | H : Py.pop _ = Raise _ |- _ => apply Py_pop_raises in H; destruct H as [? _]
    | H : getitem _ _ = Raise _ |- _ => apply getitem_raises in H
    | H : cell _ _ _ = Raise _ |- _ => apply cell_raises in H
    | H : set_cell _ _ _ _ = Raise _ |- _ => apply set_cell_raises in H
    | H : format_c _ = Raise _ |- _ => apply format_c_raises in H
    | H : format_int _ = Raise _ |- _ => apply format_int_raises in H
    | H : chr _ = Raise _ |- _ => apply chr_raises in H; destruct H
    end.

(** No command raises [SyntaxError]: what [execute] raises comes from a
    [pop] of the empty stack, a subscript outside the grid, [chr] or the
    [c] format. *)
Lemma execute_raises (r : nat) (cls : Command) (self : BefungeInterpreter) e :
  execute r cls self = Raise e ->
  e = IndexError \/ e = ValueError \/ e = OverflowError.
Proof.
  intros H.
  destruct cls; unfold_execute H; try discriminate.
  all: repeat case_match; simplify_eq; raised_by_callee; subst;
         first [tauto | discriminate].
Qed.

Lemma int_raises c e : int c = Raise e -> e = ValueError.
Proof. unfold int. case_match; congruence. Qed.

Lemma tokens_SyntaxError k lx msg :
  tokens k lx = Raises (SyntaxError msg) <->
  (k = AtLoop /\
   exists c, current_character lx = OK c /\ isdigit c = false /\ c <> quote /\
             command_lexemes c = false /\ msg = IllegalCharacter c)
  \/
  (k = InString /\ current_character lx = Raise IndexError /\
   msg = ProgramEndedInStringMode).
Proof.
  unfold tokens, current_character. split.
  - intros H. destruct k; try discriminate.
    + left. split; [reflexivity|].
      destruct (cell lx (ypos lx) (xpos lx)) as [c|e] eqn:Hc.
      * exists c. split; [reflexivity|].
        destruct (isdigit c).
        { destruct (int c) as [n|e] eqn:Hi; [discriminate|].
          apply int_raises in Hi. congruence. }
        destruct (Z.eqb_spec c quote); [discriminate|].
        destruct (command_lexemes c); [discriminate|].
        injection H as <-. tauto.
      * pose proof (cell_raises _ _ _ _ Hc) as ->. discriminate.
    + right. split; [reflexivity|].
      destruct (cell lx (ypos lx) (xpos lx)) as [c|e] eqn:Hc.
      * destruct (c =? quote); discriminate.
      * pose proof (cell_raises _ _ _ _ Hc) as ->. injection H as <-. tauto.
  - intros [(-> & c & -> & -> & Hq & -> & ->) | (-> & -> & ->)]; [|reflexivity].
    destruct (Z.eqb_spec c quote); [contradiction|reflexivity].
Qed.

Section Errors.

Variable random : nat -> nat.

Lemma on_token_raises t self n e :
  on_token random t self n = Raise e ->
  e = IndexError \/ e = ValueError \/ e = OverflowError.
Proof.
  destruct t; cbn [on_token]; try discriminate.
  - intros H. stack_log H; [discriminate|]. injection H as <-. tauto.
  - generalize (get_command value). intros command H.
    destruct (decide (command = End_)).
    + stack_log H; [discriminate|]. injection H as <-. tauto.
    + unfold mbind, result_bind, Py.bind in H.
      destruct (execute (random n) command self) as [s|e'] eqn:E; [discriminate|].
      injection H as <-. eapply execute_raises, E.
Qed.

(** A transition raises [SyntaxError] exactly under the two conditions of
    the scanner. *)
Lemma step_SyntaxError m msg :
  step random m = Abort (SyntaxError msg) <-> syntax_condition m msg.
Proof.
  unfold syntax_condition. rewrite <- tokens_SyntaxError. unfold step.
  destruct (tokens (generator m) (lexer (interpreter m))) as [t k|lx k| |e] eqn:Htok.
  - split; [|discriminate]. intros H.
    destruct (on_token random t (interpreter m) (draws m)) as [[[s n]|]|e] eqn:Hon;
      try discriminate.
    injection H as ->. apply on_token_raises in Hon.
    destruct Hon as [?|[?|?]]; discriminate.
  - split; discriminate.
  - split; discriminate.
  - split; congruence.
Qed.

(** An exception leaves [interpret] exactly when some transition of the
    run raises it: nothing catches it on the way. *)
Lemma run_Abort fuel : forall m0 e,
  run random fuel m0 = Abort e <->
  exists n m, (n < fuel)%nat /\ run random n m0 = Continue m /\ step random m = Abort e.
Proof.
  induction fuel as [|fuel IH]; intros m0 e.
  - split; [discriminate|]. intros (n & m & Hn & _). lia.
  - cbn [run]. split.
    + destruct (step random m0) as [m1| |e1] eqn:E; try discriminate.
      * intros H. apply IH in H. destruct H as (n & m & Hn & Hrun & Hstep).
        exists (S n), m. split; [lia|]. cbn [run]. rewrite E. tauto.
      * intros [= ->]. exists O, m0. split; [lia|]. split; [reflexivity|assumption].
    + intros (n & m & Hn & Hrun & Hstep). destruct n as [|n].
      * injection Hrun as <-. rewrite Hstep. reflexivity.
      * cbn [run] in Hrun.
        destruct (step random m0) as [m1| |e1] eqn:E; try discriminate.
        apply IH. exists n, m. split; [lia|]. tauto.
Qed.

End Errors.

(** C3 (as the code has it): [interpret] raises [SyntaxError] if and only if
    the scan reaches, in normal mode, a character that is no digit, no quote
    and no registered command character, or reaches, in string mode, a
    position outside the grid before a closing quote; the exception then
    leaves [interpret] with the message of its condition. *)
Theorem interpret_SyntaxError (random : nat -> nat) (fuel : nat) (str : list Z)
    (msg : SyntaxMessage) :
  interpret random fuel str = Abort (SyntaxError msg) <->
  exists n m, (n < fuel)%nat /\ run random n (start str) = Continue m /\
              syntax_condition m msg.
Proof.
  unfold interpret. rewrite run_Abort.
  split; intros (n & m & Hn & Hrun & H); exists n, m;
    (split; [exact Hn|]); (split; [exact Hrun|]);
    apply (step_SyntaxError random m msg); exact H.
Qed.

Lemma interpret_SyntaxError_witness :
  interpret (fun _ => O) 5 (of_string "1x")
  = Abort (SyntaxError (IllegalCharacter (code "x"))).
Proof.
  apply (proj2 (interpret_SyntaxError (fun _ => O) 5 (of_string "1x")
                  (IllegalCharacter (code "x")))).
  exists 2%nat,
    (mkMachine (mkInterpreter (mkLexer [of_string "1x"] 1 0 1 0) [1] []) AtLoop 0).
  split; [lia|]. split; [reflexivity|].
  left. split; [reflexivity|].
  exists (code "x"). repeat split. discriminate.
Defined.

(** C3, as stated, fails in its "only if": the scanner yields the command
    token of [+], no syntax condition arises, and the pop of the empty stack
    raises [IndexError], which leaves [interpret]. *)
Lemma interpret_raises_IndexError :
  tokens AtLoop (lexer (interpreter (start (of_string "+"))))
    = Yields (CommandToken (code "+")) AfterToken /\
  interpret (fun _ => O) 1 (of_string "+") = Abort IndexError /\
  forall msg, IndexError <> SyntaxError msg.
Proof. split; [|split]; [vm_compute; reflexivity ..|discriminate]. Qed.

Example interpret_unterminated_string :
  interpret (fun _ => O) 9 [quote; code "a"; code "b"]
  = Abort (SyntaxError ProgramEndedInStringMode).
Proof. vm_compute. reflexivity. Qed.

Example interpret_non_decimal_digit :
  interpret (fun _ => O) 5 [178] = Abort ValueError.
Proof. vm_compute. reflexivity. Qed.

(** ** The registry of commands *)

Lemma foldl_insert_lookup (l : list Command) (d0 : gmap Z Command) (c : Z) :
  foldl (fun d cls => <[token cls := cls]> d) d0 l !! c
  = match List.find (fun cls => bool_decide (token cls = c)) (rev l) with
    | Some cls => Some cls
    | None => d0 !! c
    end.
Proof.
  induction l as [|cls l IH] using rev_ind; [reflexivity|].
  rewrite foldl_app, rev_unit. cbn [foldl List.find].
  rewrite lookup_insert. rewrite IH.
  case_bool_decide; case_decide; try congruence; reflexivity.
Qed.

Lemma dict_lookup_token (cls : Command) : dict !! token cls = Some cls.
Proof. destruct cls; vm_compute; reflexivity. Qed.

Lemma dict_lookup_inv (c : Z) (cls : Command) : dict !! c = Some cls -> token cls = c.
Proof.
  unfold dict. rewrite foldl_insert_lookup.
  unfold get_subclasses. cbn [rev app List.find].
  repeat (case_bool_decide; [intros [= <-]; assumption|]).
  rewrite lookup_empty. discriminate.
Qed.

Lemma isdigit_token (cls : Command) : isdigit (token cls) = false.
Proof. destruct cls; vm_compute; reflexivity. Qed.

Lemma token_not_quote (cls : Command) : (token cls =? quote) = false.
Proof. destruct cls; vm_compute; reflexivity. Qed.

Lemma command_lexemes_token (cls : Command) : command_lexemes (token cls) = true.
Proof. unfold command_lexemes. rewrite dict_lookup_token. reflexivity. Qed.

Lemma get_command_token (cls : Command) : get_command (token cls) = cls.
Proof. unfold get_command. rewrite dict_lookup_token. reflexivity. Qed.

Lemma command_lexemes_inv (c : Z) :
  command_lexemes c = true -> exists cls, dict !! c = Some cls /\ token cls = c.
Proof.
  unfold command_lexemes. destruct (dict !! c) as [cls|] eqn:E; [|discriminate].
  intros _. exists cls. split; [reflexivity|]. apply dict_lookup_inv, E.
Qed.

(** X1: [Command.dict()] registers every concrete command class under its
    own token and under nothing else: no two classes share a token, so no
    entry of the comprehension replaces another.  The halt command is
    resolved from [@] alone. *)
Theorem dict_registers_each_class (c : Z) (cls : Command) :
  (dict !! c = Some cls <-> token cls = c) /\
  (get_command c = End_ <-> c = code "@").
Proof.
  split; split.
  - apply dict_lookup_inv.
  - intros <-. apply dict_lookup_token.
  - unfold get_command. destruct (dict !! c) as [cls'|] eqn:E; [|discriminate].
    intros ->. apply dict_lookup_inv in E. rewrite <- E. reflexivity.
  - intros ->. vm_compute. reflexivity.
Qed.

Lemma dict_registers_each_class_witness : token Plus = code "+".
Proof.
  apply (proj1 (proj1 (dict_registers_each_class (code "+") Plus))).
  reflexivity.
Defined.

(** X2: the three kinds of character the scanner tells apart are disjoint: a
    registered command character is no digit and is not the quote, so the
    order of the tests in [Lexer.tokens] decides nothing.  A command token
    the scanner yields always resolves to the class registered for its
    character: the [NoopCommand] fallback of [Parser.get_command] is never
    taken in a run. *)
Theorem command_tokens_resolve (k k' : Suspension) (lx : Lexer) (c : Z) :
  (command_lexemes c = true -> isdigit c = false /\ c <> quote) /\
  (tokens k lx = Yields (CommandToken c) k' ->
   k = AtLoop /\ k' = AfterToken /\ current_character lx = OK c /\
   dict !! c = Some (get_command c) /\ token (get_command c) = c).
Proof.
  split.
  - intros H. apply command_lexemes_inv in H. destruct H as (cls & _ & <-).
    split; [apply isdigit_token|].
    pose proof (token_not_quote cls) as Hq. apply Z.eqb_neq. exact Hq.
  - unfold tokens, current_character. intros H. destruct k; try discriminate.
    + destruct (cell lx (ypos lx) (xpos lx)) as [ch|e] eqn:Hc.
      * destruct (isdigit ch); [destruct (int ch); discriminate|].
        destruct (ch =? quote); [discriminate|].
        destruct (command_lexemes ch) eqn:Hl; [|discriminate].
        injection H as -> <-.
        apply command_lexemes_inv in Hl. destruct Hl as (cls & Hd & Ht).
        unfold get_command. rewrite Hd. tauto.
      * destruct e; discriminate.
    + destruct (cell lx (ypos lx) (xpos lx)) as [ch|e] eqn:Hc.
      * destruct (ch =? quote); discriminate.
      * destruct e; discriminate.
Qed.

Lemma command_tokens_resolve_witness :
  isdigit (code "g") = false /\ code "g" <> quote.
Proof.
  apply (proj1 (command_tokens_resolve AtLoop AtLoop Lexer_init (code "g"))).
  reflexivity.
Defined.

(** ** The fetch-execute cycle *)

Lemma run_add (random : nat -> nat) (a b : nat) : forall m,
  run random (a + b) m
  = match run random a m with
    | Continue m' => run random b m'
    | done => done
    end.
Proof.
  induction a as [|a IH]; intros m; [reflexivity|].
  cbn [Nat.add run]. destruct (step random m); [apply IH | reflexivity ..].
Qed.

Lemma cycle_command (random : nat -> nat) (self self' : BefungeInterpreter)
    (n : nat) (cls : Command) :
  current_character (lexer self) = OK (token cls) ->
  cls <> End_ ->
  execute (random n) cls self = OK self' ->
  run random 2 (mkMachine self AtLoop n)
  = Continue (mkMachine (set_lexer self' (advance (lexer self'))) AtLoop
                (if decide (cls = ChooseRandomDirection) then S n else n)).
Proof.
  intros Hc Hcls Hex. unfold current_character in Hc.
  cbn [run]. unfold step at 1. cbn [interpreter generator draws].
  unfold tokens. rewrite Hc, isdigit_token, token_not_quote, command_lexemes_token.
  cbn [on_token]. rewrite get_command_token.
  destruct (decide (cls = End_)); [contradiction|].
  rewrite Hex. unfold mbind, result_bind, Py.bind.
  unfold step. cbn [interpreter generator draws tokens]. reflexivity.
Qed.

Lemma decimal_value_ascii (c : Z) : 48 <= c <= 57 -> decimal_value c = Some (c - 48).
Proof.
  intros H. unfold decimal_value, decimal_zeros. cbn [List.find].
  assert (Hb : (48 <=? c) && (c <? 48 + 10) = true).
  { apply andb_true_iff. split; [apply Z.leb_le | apply Z.ltb_lt]; lia. }
  rewrite Hb. reflexivity.
Qed.

Lemma cycle_digit (random : nat -> nat) (self : BefungeInterpreter) (n : nat) (c : Z) :
  current_character (lexer self) = OK c ->
  48 <= c <= 57 ->
  run random 2 (mkMachine self AtLoop n)
  = Continue (mkMachine (set_lexer (push self (c - 48)) (advance (lexer self))) AtLoop n).
Proof.
  intros Hc Hd. unfold current_character in Hc.
  cbn [run]. unfold step at 1. cbn [interpreter generator draws].
  unfold tokens. rewrite Hc. unfold isdigit, int.
  rewrite decimal_value_ascii by assumption.
  cbn [on_token]. unfold step. cbn [interpreter generator draws tokens]. reflexivity.
Qed.

Ltac same_machine :=
  unfold set_lexer, advance;
  cbn [lexer _data _output program xpos ypos dx dy];
  case_decide; [discriminate|];
  do 3 f_equal; f_equal; lia.

(** X3: a cell holding a command character other than [@] costs two
    transitions: the command is executed first, and the cursor then advances
    by the direction the command has left, so a command that turns the
    cursor already moves it in the new direction.  A draw is counted for
    [?] alone. *)
Theorem command_cell_cycle (random : nat -> nat) (m : Machine) (cls : Command)
    (self' : BefungeInterpreter) :
  generator m = AtLoop ->
  current_character (lexer (interpreter m)) = OK (token cls) ->
  cls <> End_ ->
  execute (random (draws m)) cls (interpreter m) = OK self' ->
  run random 2 m
  = Continue
      {| interpreter :=
           set_lexer self'
             {| program := program (lexer self');
                xpos := xpos (lexer self') + dx (lexer self');
                ypos := ypos (lexer self') + dy (lexer self');
                dx := dx (lexer self'); dy := dy (lexer self') |};
         generator := AtLoop;
         draws := if decide (cls = ChooseRandomDirection) then S (draws m) else draws m |}.
Proof.
  destruct m as [self k n]. cbn [generator interpreter draws].
  intros -> Hc Hcls Hex. apply cycle_command; assumption.
Qed.

Lemma command_cell_cycle_witness :
  run (fun _ => O) 2
    (mkMachine (mkInterpreter (mkLexer [of_string "1v"] 1 0 1 0) [1] []) AtLoop 0)
  = Continue
      (mkMachine (mkInterpreter (mkLexer [of_string "1v"] 1 1 0 1) [1] []) AtLoop 0).
Proof.
  refine (command_cell_cycle (fun _ => O)
            (mkMachine (mkInterpreter (mkLexer [of_string "1v"] 1 0 1 0) [1] []) AtLoop 0)
            HeadDown (mkInterpreter (mkLexer [of_string "1v"] 1 0 0 1) [1] []) _ _ _ _).
  - reflexivity.
  - reflexivity.
  - discriminate.
  - reflexivity.
Defined.

(** X4: the trampoline [#] makes the cursor land two cells further in its
    direction, jumping over one cell whatever that cell holds; the stack,
    the output, the grid and the direction are left as they were. *)
Theorem Skip_jumps_over_one_cell (random : nat -> nat) (lx : Lexer) (d : list Z)
    (out : list (list Z)) (n : nat) :
  current_character lx = OK (code "#") ->
  run random 2 (mkMachine (mkInterpreter lx d out) AtLoop n)
  = Continue
      (mkMachine
         (mkInterpreter
            (mkLexer (program lx) (xpos lx + 2 * dx lx) (ypos lx + 2 * dy lx) (dx lx) (dy lx))
            d out)
         AtLoop n).
Proof.
  intros Hc.
  rewrite (cycle_command random (mkInterpreter lx d out)
             (mkInterpreter (advance lx) d out) n Skip);
    [|exact Hc|discriminate|reflexivity].
  same_machine.
Qed.

Lemma Skip_jumps_over_one_cell_witness :
  run (fun _ => O) 2
    (mkMachine (mkInterpreter (mkLexer [of_string "#x1"] 0 0 1 0) [] []) AtLoop 0)
  = Continue
      (mkMachine (mkInterpreter (mkLexer [of_string "#x1"] 2 0 1 0) [] []) AtLoop 0).
Proof.
  apply (Skip_jumps_over_one_cell (fun _ => O) (mkLexer [of_string "#x1"] 0 0 1 0) [] [] 0).
  reflexivity.
Defined.

(** X5: the conditional turns pop one value and leave the cell in the
    direction it selects, whatever the direction was: [_] heads right when
    the value is zero and left otherwise; [|] heads down when the value is
    zero and up otherwise (the code, not the docstring of the class, which
    names the two the other way round). *)
Theorem conditional_turns (random : nat -> nat) (lx : Lexer) (rest : list Z) (v : Z)
    (out : list (list Z)) (n : nat) :
  (current_character lx = OK (code "_") ->
   run random 2 (mkMachine (mkInterpreter lx (rest ++ [v]) out) AtLoop n)
   = Continue
       (mkMachine
          (mkInterpreter
             (mkLexer (program lx) (xpos lx + (if v =? 0 then 1 else -1)) (ypos lx)
                      (if v =? 0 then 1 else -1) 0)
             rest out)
          AtLoop n)) /\
  (current_character lx = OK (code "|") ->
   run random 2 (mkMachine (mkInterpreter lx (rest ++ [v]) out) AtLoop n)
   = Continue
       (mkMachine
          (mkInterpreter
             (mkLexer (program lx) (xpos lx) (ypos lx + (if v =? 0 then 1 else -1))
                      0 (if v =? 0 then 1 else -1))
             rest out)
          AtLoop n)).
Proof.
  split; intros Hc.
  - rewrite (cycle_command random _
               (mkInterpreter
                  (mkLexer (program lx) (xpos lx) (ypos lx) (if v =? 0 then 1 else -1) 0)
                  rest out)
               n ChooseHorizontalDirection);
      [|exact Hc|discriminate|].
    + same_machine.
    + cbn [execute]. rewrite pop_app. cbn. destruct (v =? 0); reflexivity.
  - rewrite (cycle_command random _
               (mkInterpreter
                  (mkLexer (program lx) (xpos lx) (ypos lx) 0 (if v =? 0 then 1 else -1))
                  rest out)
               n ChooseVerticalDirection);
      [|exact Hc|discriminate|].
    + same_machine.
    + cbn [execute]. rewrite pop_app. cbn. destruct (v =? 0); reflexivity.
Qed.

Lemma conditional_turns_witness :
  run (fun _ => O) 2
    (mkMachine (mkInterpreter (mkLexer [of_string "1|"; of_string "@@"] 1 0 1 0) ([] ++ [0]) [])
               AtLoop 0)
  = Continue
      (mkMachine (mkInterpreter (mkLexer [of_string "1|"; of_string "@@"] 1 (0 + 1) 0 1) [] [])
                 AtLoop 0).
Proof.
  apply (proj2 (conditional_turns (fun _ => O)
                  (mkLexer [of_string "1|"; of_string "@@"] 1 0 1 0) [] 0 [] 0)).
  reflexivity.
Defined.

(** ** String mode *)

Lemma getitem_middle {A} (pre post : list A) (c : A) :
  getitem (pre ++ c :: post) (Z.of_nat (length pre)) = OK c.
Proof.
  apply getitem_wrapped.
  - rewrite length_app. cbn [length]. lia.
  - unfold wrapped. destruct (Z.ltb_spec (Z.of_nat (length pre)) 0); [lia|].
    rewrite Nat2Z.id. apply list_lookup_middle. reflexivity.
Qed.

Lemma getitem_past_end {A} (l : list A) : getitem l (Z.of_nat (length l)) = Raise IndexError.
Proof. apply getitem_out_of_range. lia. Qed.

Lemma cell_middle p y ddx ddy (row pre post : list Z) (c : Z) :
  getitem p y = OK row ->
  row = pre ++ c :: post ->
  current_character (mkLexer p (Z.of_nat (length pre)) y ddx ddy) = OK c.
Proof.
  intros Hrow ->. unfold current_character, cell. cbn [program xpos ypos].
  rewrite Hrow. apply getitem_middle.
Qed.

Lemma cell_past_end p y ddx ddy (row : list Z) :
  getitem p y = OK row ->
  current_character (mkLexer p (Z.of_nat (length row)) y ddx ddy) = Raise IndexError.
Proof.
  intros Hrow. unfold current_character, cell. cbn [program xpos ypos].
  rewrite Hrow. apply getitem_past_end.
Qed.

Lemma string_phase (random : nat -> nat) p y (row : list Z) (n : nat) (s : list Z) :
  forall pre tail d out,
    getitem p y = OK row ->
    row = pre ++ s ++ tail ->
    Forall (fun c => c <> quote) s ->
    run random (2 * length s)
      (mkMachine (mkInterpreter (mkLexer p (Z.of_nat (length pre)) y 1 0) d out) InString n)
    = Continue
        (mkMachine
           (mkInterpreter (mkLexer p (Z.of_nat (length pre + length s)) y 1 0) (d ++ s) out)
           InString n).
Proof.
  induction s as [|c s IH]; intros pre tail d out Hrow Hsplit Hs.
  - change (2 * length (@nil Z))%nat with O. cbn [run length].
    rewrite Nat.add_0_r, app_nil_r. reflexivity.
  - replace (2 * length (c :: s))%nat with (2 + 2 * length s)%nat by (cbn [length]; lia).
    rewrite run_add.
    assert (Hc : current_character (mkLexer p (Z.of_nat (length pre)) y 1 0) = OK c).
    { eapply cell_middle; [exact Hrow | exact Hsplit]. }
    inversion Hs as [|c' s' Hq Hs']; subst c' s'.
    assert (Htwo :
      run random 2
        (mkMachine (mkInterpreter (mkLexer p (Z.of_nat (length pre)) y 1 0) d out) InString n)
      = Continue
          (mkMachine
             (mkInterpreter (mkLexer p (Z.of_nat (length (pre ++ [c]))) y 1 0) (d ++ [c]) out)
             InString n)).
    { cbn [run]. unfold step at 1. cbn [interpreter generator draws lexer].
      unfold tokens. rewrite Hc.
      destruct (Z.eqb_spec c quote) as [->|_]; [contradiction|].
      cbn [on_token]. unfold step. cbn [interpreter generator draws tokens].
      unfold push, set_data, set_lexer, advance, append, ord.
      cbn [lexer _data _output program xpos ypos dx dy].
      rewrite length_app. cbn [length].
      do 3 f_equal. f_equal; lia. }
    rewrite Htwo.
    rewrite (IH (pre ++ [c]) tail (d ++ [c]) out Hrow); [| |exact Hs'].
    + rewrite length_app. cbn [length].
      rewrite <- app_assoc. cbn [app].
      do 3 f_equal. f_equal. lia.
    + rewrite Hsplit, <- app_assoc. reflexivity.
Qed.

(** X6: a string literal pushes its text.  With the cursor heading right on
    a quote that opens the text [s] closed by the next quote of the row,
    after [2 * len(s) + 2] transitions the codes of [s] are on the stack in
    reading order (the last character on top), whatever the characters are,
    and the cursor stands just past the closing quote, in normal mode; the
    output and the grid are unchanged. *)
Theorem string_literal_pushes_text (random : nat -> nat) p y (row pre s post : list Z)
    (d : list Z) (out : list (list Z)) (n : nat) :
  getitem p y = OK row ->
  row = pre ++ quote :: s ++ quote :: post ->
  Forall (fun c => c <> quote) s ->
  run random (2 * length s + 2)
    (mkMachine (mkInterpreter (mkLexer p (Z.of_nat (length pre)) y 1 0) d out) AtLoop n)
  = Continue
      (mkMachine
         (mkInterpreter (mkLexer p (Z.of_nat (length pre) + Z.of_nat (length s) + 2) y 1 0)
                        (d ++ s) out)
         AtLoop n).
Proof.
  intros Hrow Hsplit Hs.
  replace (2 * length s + 2)%nat with (1 + (2 * length s + 1))%nat by lia.
  rewrite run_add.
  assert (Hopen :
    run random 1
      (mkMachine (mkInterpreter (mkLexer p (Z.of_nat (length pre)) y 1 0) d out) AtLoop n)
    = Continue
        (mkMachine
           (mkInterpreter (mkLexer p (Z.of_nat (length (pre ++ [quote]))) y 1 0) d out)
           InString n)).
  { cbn [run]. unfold step. cbn [interpreter generator draws lexer]. unfold tokens.
    pose proof (cell_middle p y 1 0 row pre (s ++ quote :: post) quote Hrow Hsplit) as Hc.
    unfold current_character in Hc. cbn [xpos ypos] in *. rewrite Hc.
    change (isdigit quote) with false. rewrite Z.eqb_refl.
    unfold set_lexer, advance. cbn [lexer _data _output program xpos ypos dx dy].
    rewrite length_app. cbn [length]. do 3 f_equal. f_equal; lia. }
  rewrite Hopen, run_add.
  rewrite (string_phase random p y row n s (pre ++ [quote]) (quote :: post) d out Hrow);
    [| |exact Hs].
  - cbn [run]. unfold step. cbn [interpreter generator draws lexer]. unfold tokens.
    rewrite <- length_app, <- app_assoc.
    assert (Hc : current_character
                   (mkLexer p (Z.of_nat (length (pre ++ [quote] ++ s))) y 1 0) = OK quote).
    { apply (cell_middle p y 1 0 row (pre ++ [quote] ++ s) post quote Hrow).
      rewrite Hsplit, <- !app_assoc. reflexivity. }
    rewrite Hc, Z.eqb_refl.
    unfold set_lexer, advance. cbn [lexer _data _output program xpos ypos dx dy].
    rewrite !length_app. cbn [length]. do 3 f_equal. f_equal; lia.
  - rewrite Hsplit, <- app_assoc. reflexivity.
Qed.

Lemma string_literal_pushes_text_witness :
  run (fun _ => O) (2 * 2 + 2)
    (mkMachine (mkInterpreter (mkLexer [[49; 34; 64; 120; 34; 46]] 1 0 1 0) [1] []) AtLoop 0)
  = Continue
      (mkMachine (mkInterpreter (mkLexer [[49; 34; 64; 120; 34; 46]] (1 + 2 + 2) 0 1 0)
                                ([1] ++ [64; 120]) [])
                 AtLoop 0).
Proof.
  apply (string_literal_pushes_text (fun _ => O) [[49; 34; 64; 120; 34; 46]] 0
           [49; 34; 64; 120; 34; 46] [49] [64; 120] [46] [1] [] 0).
  - reflexivity.
  - reflexivity.
  - repeat constructor; discriminate.
Defined.

(** X7: a string left open raises.  With the cursor heading right on a
    quote after which the row holds no other quote, the characters up to the
    end of the row are pushed and the read past the end of the row then
    raises [SyntaxError] ("Program ended in string mode"): the run aborts
    after [2 * len(s) + 2] transitions, whatever rows lie below. *)
Theorem open_string_raises (random : nat -> nat) p y (row pre s : list Z)
    (d : list Z) (out : list (list Z)) (n : nat) :
  getitem p y = OK row ->
  row = pre ++ quote :: s ->
  Forall (fun c => c <> quote) s ->
  run random (2 * length s + 2)
    (mkMachine (mkInterpreter (mkLexer p (Z.of_nat (length pre)) y 1 0) d out) AtLoop n)
  = Abort (SyntaxError ProgramEndedInStringMode).
Proof.
  intros Hrow Hsplit Hs.
  replace (2 * length s + 2)%nat with (1 + (2 * length s + 1))%nat by lia.
  rewrite run_add.
  assert (Hopen :
    run random 1
      (mkMachine (mkInterpreter (mkLexer p (Z.of_nat (length pre)) y 1 0) d out) AtLoop n)
    = Continue
        (mkMachine
           (mkInterpreter (mkLexer p (Z.of_nat (length (pre ++ [quote]))) y 1 0) d out)
           InString n)).
  { cbn [run]. unfold step. cbn [interpreter generator draws lexer]. unfold tokens.
    pose proof (cell_middle p y 1 0 row pre s quote Hrow Hsplit) as Hc.
    unfold current_character in Hc. cbn [xpos ypos] in *. rewrite Hc.
    change (isdigit quote) with false. rewrite Z.eqb_refl.
    unfold set_lexer, advance. cbn [lexer _data _output program xpos ypos dx dy].
    rewrite length_app. cbn [length]. do 3 f_equal. f_equal; lia. }
  rewrite Hopen, run_add.
  rewrite (string_phase random p y row n s (pre ++ [quote]) [] d out Hrow);
    [| |exact Hs].
  - cbn [run]. unfold step. cbn [interpreter generator draws lexer]. unfold tokens.
    replace (length (pre ++ [quote]) + length s)%nat with (length row)
      by (rewrite Hsplit, !length_app; cbn [length]; lia).
    rewrite (cell_past_end p y 1 0 row Hrow). reflexivity.
  - rewrite Hsplit, <- app_assoc, app_nil_r. reflexivity.
Qed.

Lemma open_string_raises_witness :
  run (fun _ => O) (2 * 2 + 2)
    (mkMachine (mkInterpreter (mkLexer [[49; 34; 64; 120]; [34]] 1 0 1 0) [1] []) AtLoop 0)
  = Abort (SyntaxError ProgramEndedInStringMode).
Proof.
  apply (open_string_raises (fun _ => O) [[49; 34; 64; 120]; [34]] 0
           [49; 34; 64; 120] [49] [64; 120] [1] [] 0).
  - reflexivity.
  - reflexivity.
  - repeat constructor; discriminate.
Defined.

(** ** A row of digits and output commands *)

Lemma split_lines_one_line (s : list Z) :
  Forall (fun c => c <> 10) s -> split_lines s = [s].
Proof.
  induction 1 as [|c s Hc _ IH]; [reflexivity|].
  cbn [split_lines]. destruct (Z.eqb_spec c 10); [contradiction|].
  rewrite IH. reflexivity.
Qed.

Lemma format_d_digit (d : Z) : 0 <= d <= 9 -> format_d d = [48 + d].
Proof.
  intros H.
  assert (Hd : d = 0 \/ d = 1 \/ d = 2 \/ d = 3 \/ d = 4 \/ d = 5 \/ d = 6 \/ d = 7 \/
               d = 8 \/ d = 9) by lia.
  repeat (destruct Hd as [->|Hd]; [reflexivity|]). subst d. reflexivity.
Qed.

Lemma run_end_of_program (random : nat -> nat) (self : BefungeInterpreter) (n fuel : nat) :
  current_character (lexer self) = Raise IndexError ->
  run random (S (S fuel)) (mkMachine self AtLoop n)
  = if forallb within_str_digits (_data self)
    then Return (join (_output self)) self
    else Abort ValueError.
Proof.
  intros Hc. unfold current_character in Hc.
  cbn [run]. unfold step at 1. cbn [interpreter generator draws].
  unfold tokens. rewrite Hc. cbn [on_token].
  unfold format_list. destruct (forallb within_str_digits (_data self)).
  - unfold step. cbn [interpreter generator draws tokens mbind result_bind Py.bind].
    reflexivity.
  - reflexivity.
Qed.

Lemma within_str_digits_digit (d : Z) : 0 <= d <= 9 -> within_str_digits d = true.
Proof.
  intros H.
  assert (Hd : d = 0 \/ d = 1 \/ d = 2 \/ d = 3 \/ d = 4 \/ d = 5 \/ d = 6 \/ d = 7 \/
               d = 8 \/ d = 9) by lia.
  repeat (destruct Hd as [->|Hd]; [reflexivity|]). subst d. reflexivity.
Qed.

Lemma digits_phase (random : nat -> nat) p y (row : list Z) (n : nat) (ds : list Z) :
  forall pre tail d out,
    getitem p y = OK row ->
    row = pre ++ map (Z.add 48) ds ++ tail ->
    Forall (fun v => 0 <= v <= 9) ds ->
    run random (2 * length ds)
      (mkMachine (mkInterpreter (mkLexer p (Z.of_nat (length pre)) y 1 0) d out) AtLoop n)
    = Continue
        (mkMachine
           (mkInterpreter (mkLexer p (Z.of_nat (length pre + length ds)) y 1 0) (d ++ ds) out)
           AtLoop n).
Proof.
  induction ds as [|v ds IH]; intros pre tail d out Hrow Hsplit Hds.
  - change (2 * length (@nil Z))%nat with O. cbn [run length].
    rewrite Nat.add_0_r, app_nil_r. reflexivity.
  - replace (2 * length (v :: ds))%nat with (2 + 2 * length ds)%nat by (cbn [length]; lia).
    inversion Hds as [|v' ds' Hv Hds']; subst v' ds'.
    rewrite run_add.
    assert (Htwo :
      run random 2
        (mkMachine (mkInterpreter (mkLexer p (Z.of_nat (length pre)) y 1 0) d out) AtLoop n)
      = Continue
          (mkMachine
             (mkInterpreter (mkLexer p (Z.of_nat (length (pre ++ [48 + v]))) y 1 0)
                            (d ++ [v]) out)
             AtLoop n)).
    { rewrite (cycle_digit random _ n (48 + v)); [| |lia].
      - unfold set_lexer, push, set_data, advance, append.
        cbn [lexer _data _output program xpos ypos dx dy].
        rewrite length_app. cbn [length].
        do 2 f_equal. f_equal; [f_equal; lia | do 2 f_equal; lia].
      - cbn [lexer]. eapply cell_middle; [exact Hrow | exact Hsplit]. }
    rewrite Htwo.
    rewrite (IH (pre ++ [48 + v]) tail (d ++ [v]) out Hrow); [| |exact Hds'].
    + rewrite length_app. cbn [length]. rewrite <- app_assoc. cbn [app].
      do 3 f_equal. f_equal. lia.
    + rewrite Hsplit, <- app_assoc. reflexivity.
Qed.

Lemma dots_phase (random : nat -> nat) p y (row : list Z) (n : nat) (vs : list Z) :
  forall pre tail base out,
    getitem p y = OK row ->
    row = pre ++ repeat (code ".") (length vs) ++ tail ->
    Forall (fun v => within_str_digits v = true) vs ->
    run random (2 * length vs)
      (mkMachine (mkInterpreter (mkLexer p (Z.of_nat (length pre)) y 1 0) (base ++ rev vs) out)
                 AtLoop n)
    = Continue
        (mkMachine
           (mkInterpreter (mkLexer p (Z.of_nat (length pre + length vs)) y 1 0) base
                          (out ++ map format_d vs))
           AtLoop n).
Proof.
  induction vs as [|v vs IH]; intros pre tail base out Hrow Hsplit Hvs.
  - change (2 * length (@nil Z))%nat with O. cbn [run length rev map].
    rewrite Nat.add_0_r, !app_nil_r. reflexivity.
  - replace (2 * length (v :: vs))%nat with (2 + 2 * length vs)%nat by (cbn [length]; lia).
    inversion Hvs as [|v' vs' Hv Hvs']; subst v' vs'.
    rewrite run_add.
    assert (Htwo :
      run random 2
        (mkMachine
           (mkInterpreter (mkLexer p (Z.of_nat (length pre)) y 1 0) (base ++ rev (v :: vs)) out)
           AtLoop n)
      = Continue
          (mkMachine
             (mkInterpreter (mkLexer p (Z.of_nat (length (pre ++ [code "."]))) y 1 0)
                            (base ++ rev vs) (out ++ [format_d v]))
             AtLoop n)).
    { cbn [rev]. rewrite app_assoc.
      rewrite (cycle_command random _
                 (mkInterpreter (mkLexer p (Z.of_nat (length pre)) y 1 0) (base ++ rev vs)
                                (out ++ [format_d v]))
                 n OutputInteger); [| |discriminate|].
      - unfold set_lexer, advance.
        cbn [lexer _data _output program xpos ypos dx dy].
        case_decide; [discriminate|].
        rewrite length_app. cbn [length]. do 3 f_equal. f_equal; lia.
      - cbn [lexer]. eapply (cell_middle p y 1 0 row pre); [exact Hrow|].
        rewrite Hsplit. cbn [length repeat app]. reflexivity.
      - cbn [execute]. rewrite pop_app. unfold format_int.
        cbn [mbind result_bind Py.bind]. rewrite Hv. reflexivity. }
    rewrite Htwo.
    rewrite (IH (pre ++ [code "."]) tail base (out ++ [format_d v]) Hrow); [| |exact Hvs'].
    + rewrite length_app. cbn [length map]. rewrite <- app_assoc. cbn [app].
      do 3 f_equal. f_equal. lia.
    + rewrite Hsplit. cbn [length repeat]. rewrite <- app_assoc. reflexivity.
Qed.

(** X8: the stack is last-in, first-out.  A one-line program made of
    decimal digits followed by as many [.] outputs the digits in reverse
    order and returns when the cursor runs off the end of the line, the
    stack being empty again. *)
Theorem digits_then_dots_reverse (random : nat -> nat) (ds : list Z) :
  Forall (fun v => 0 <= v <= 9) ds ->
  interpret random (4 * length ds + 2)
    (map (Z.add 48) ds ++ repeat (code ".") (length ds))
  = Return (map (Z.add 48) (rev ds))
      (mkInterpreter
         (mkLexer [map (Z.add 48) ds ++ repeat (code ".") (length ds)]
                  (Z.of_nat (length ds + length ds)) 0 1 0)
         [] (map format_d (rev ds))).
Proof.
  intros Hds.
  set (src := map (Z.add 48) ds ++ repeat (code ".") (length ds)).
  assert (Hone : split_lines src = [src]).
  { apply split_lines_one_line. apply Forall_app. split.
    - apply Forall_map. eapply Forall_impl; [exact Hds|]. cbn. intros v Hv. lia.
    - apply Forall_forall. intros c Hc. apply list_elem_of_In, repeat_spec in Hc.
      subst c. discriminate. }
  unfold interpret, start, read.
  change (lexer BefungeInterpreter_init) with Lexer_init.
  cbn [program xpos ypos dx dy Lexer_init]. rewrite Hone.
  unfold set_lexer. cbn [BefungeInterpreter_init _data _output app].
  assert (Hrow : getitem [src] 0 = OK src) by reflexivity.
  replace (4 * length ds + 2)%nat
    with (2 * length ds + (2 * length (rev ds) + 2))%nat by (rewrite length_rev; lia).
  rewrite run_add.
  pose proof (digits_phase random [src] 0 src 0 ds [] (repeat (code ".") (length ds)) [] []
                Hrow eq_refl Hds) as H1.
  cbn [length Nat.add app] in H1. change (Z.of_nat 0) with 0 in H1.
  rewrite H1. clear H1.
  rewrite run_add.
  assert (Hsplit : src = map (Z.add 48) ds ++ repeat (code ".") (length (rev ds)) ++ []).
  { rewrite length_rev, app_nil_r. reflexivity. }
  assert (Hfit : Forall (fun v => within_str_digits v = true) (rev ds)).
  { apply Forall_rev. eapply Forall_impl; [exact Hds|].
    intros v Hv. apply within_str_digits_digit, Hv. }
  pose proof (dots_phase random [src] 0 src 0 (rev ds) (map (Z.add 48) ds) [] [] []
                Hrow Hsplit Hfit) as H2.
  rewrite rev_involutive, length_map in H2. cbn [app] in H2.
  rewrite H2. clear H2.
  rewrite length_rev, run_end_of_program.
  - cbn [_output _data forallb]. f_equal.
    unfold join. clear -Hds.
    apply Forall_rev in Hds. induction Hds as [|v l Hv _ IH]; [reflexivity|].
    cbn [map concat]. rewrite format_d_digit by assumption. rewrite IH. reflexivity.
  - cbn [lexer].
    replace (length ds + length ds)%nat with (length src).
    + apply (cell_past_end [src] 0 1 0 src Hrow).
    + unfold src. rewrite length_app, length_map, repeat_length. reflexivity.
Qed.

Lemma digits_then_dots_reverse_witness :
  interpret (fun _ => O) (4 * 3 + 2) (map (Z.add 48) [1; 2; 3] ++ repeat (code ".") 3)
  = Return (map (Z.add 48) (rev [1; 2; 3]))
      (mkInterpreter
         (mkLexer [map (Z.add 48) [1; 2; 3] ++ repeat (code ".") 3] (Z.of_nat (3 + 3)) 0 1 0)
         [] (map format_d (rev [1; 2; 3]))).
Proof.
  apply (digits_then_dots_reverse (fun _ => O) [1; 2; 3]).
  repeat constructor; lia.
Defined.

(** ** What a run keeps: the shape of the grid and the output written *)

Lemma getitem_inv {A} (l : list A) (i : Z) (a : A) :
  getitem l i = OK a -> exists n, index (length l) i = Some n /\ l !! n = Some a.
Proof.
  unfold getitem. destruct (index (length l) i) as [n|]; [|discriminate].
  destruct (l !! n) as [a'|] eqn:E; [|discriminate].
  intros [= <-]. eauto.
Qed.

Lemma set_cell_shape lx y x c lx' :
  set_cell lx y x c = OK lx' -> grid_shape (program lx') = grid_shape (program lx).
Proof.
  unfold set_cell, mbind, result_bind, Py.bind. intros H.
  destruct (getitem (program lx) y) as [row|] eqn:Hrow; [|discriminate].
  apply getitem_inv in Hrow. destruct Hrow as (n & Hn & Hlook).
  unfold setitem in H. rewrite Hn in H.
  destruct (index (length row) x) as [k|]; [|discriminate].
  injection H as <-. cbn [program]. unfold grid_shape.
  rewrite list_fmap_insert, length_insert.
  apply list_insert_id. rewrite list_lookup_fmap, Hlook. reflexivity.
Qed.

Lemma execute_keeps (r : nat) (cls : Command) (self self' : BefungeInterpreter) :
  execute r cls self = OK self' ->
  grid_shape (program (lexer self')) = grid_shape (program (lexer self)) /\
  exists extra, _output self' = _output self ++ extra.
Proof.
  intros H.
  assert (Hnil : _output self = _output self ++ []) by (rewrite app_nil_r; reflexivity).
  destruct cls; unfold_execute H.
  all: try (injection H as <-; cbn; split; [reflexivity | eexists; exact Hnil]).
  all: repeat case_match; simplify_eq; cbn;
         try (split; [reflexivity | first [eexists; exact Hnil | eexists; reflexivity]]).
  split; [eapply set_cell_shape; eassumption | eexists; exact Hnil].
Qed.

Lemma tokens_Goes k lx lx' k' : tokens k lx = Goes lx' k' -> lx' = advance lx.
Proof.
  unfold tokens. intros H. repeat case_match; simplify_eq; reflexivity.
Qed.

Section Keeps.

Variable random : nat -> nat.

Lemma step_keeps m m' :
  step random m = Continue m' ->
  grid_shape (program (lexer (interpreter m')))
  = grid_shape (program (lexer (interpreter m))) /\
  exists extra, _output (interpreter m') = _output (interpreter m) ++ extra.
Proof.
  unfold step.
  destruct (tokens (generator m) (lexer (interpreter m))) as [t k|lx k| |e] eqn:Htok;
    try discriminate.
  - destruct t; cbn [on_token].
    + intros H. stack_log H. injection H as <-.
      cbn. split; [reflexivity|]. exists []. rewrite app_nil_r. reflexivity.
    + intros [= <-]. cbn. split; [reflexivity|]. exists []. rewrite app_nil_r. reflexivity.
    + intros [= <-]. cbn. split; [reflexivity|]. exists []. rewrite app_nil_r. reflexivity.
    + generalize (get_command value). intros command.
      destruct (decide (command = End_)); [intros H; stack_log H; discriminate|].
      unfold mbind, result_bind, Py.bind.
      destruct (execute (random (draws m)) command (interpreter m)) as [s|e] eqn:E;
        [|discriminate].
      intros [= <-]. cbn [interpreter]. eapply execute_keeps, E.
  - intros [= <-]. apply tokens_Goes in Htok. subst lx. cbn.
    split; [reflexivity|]. exists []. rewrite app_nil_r. reflexivity.
Qed.

Lemma run_keeps n : forall m,
  (forall m', run random n m = Continue m' ->
     grid_shape (program (lexer (interpreter m')))
     = grid_shape (program (lexer (interpreter m))) /\
     exists extra, _output (interpreter m') = _output (interpreter m) ++ extra) /\
  (forall s self, run random n m = Return s self ->
     s = join (_output self) /\
     grid_shape (program (lexer self)) = grid_shape (program (lexer (interpreter m))) /\
     exists extra, _output self = _output (interpreter m) ++ extra).
Proof.
  induction n as [|n IH]; intros m; cbn [run].
  - split; [|discriminate]. intros m' [= <-].
    split; [reflexivity|]. exists []. rewrite app_nil_r. reflexivity.
  - destruct (step random m) as [m1|s1 self1|e] eqn:Hstep.
    + destruct (step_keeps _ _ Hstep) as (Hg & e1 & He1).
      destruct (IH m1) as [IHc IHr]. split.
      * intros m' Hrun. destruct (IHc m' Hrun) as (Hg' & e2 & He2).
        split; [congruence|]. exists (e1 ++ e2). rewrite He2, He1, app_assoc. reflexivity.
      * intros s self Hrun. destruct (IHr s self Hrun) as (Hs & Hg' & e2 & He2).
        split; [exact Hs|]. split; [congruence|].
        exists (e1 ++ e2). rewrite He2, He1, app_assoc. reflexivity.
    + split; [discriminate|]. intros s self [= <- <-].
      pose proof (step_Return _ _ _ _ Hstep) as ->.
      split.
      * unfold step in Hstep. repeat case_match; simplify_eq; reflexivity.
      * split; [reflexivity|]. exists []. rewrite app_nil_r. reflexivity.
    + split; discriminate.
Qed.

End Keeps.

(** X9: the grid never changes shape.  In every machine a run of
    [interpret] reaches, and in the interpreter it returns from, the grid
    has the rows of the source text, each with its original length: [p]
    overwrites cells, it never adds or removes one. *)
Theorem grid_keeps_its_shape (random : nat -> nat) (str : list Z) (n : nat) :
  (forall m, run random n (start str) = Continue m ->
             grid_shape (program (lexer (interpreter m))) = map length (split_lines str)) /\
  (forall s self, interpret random n str = Return s self ->
                  grid_shape (program (lexer self)) = map length (split_lines str)).
Proof.
  destruct (run_keeps random n (start str)) as [Hc Hr]. split.
  - intros m Hrun. apply Hc in Hrun. destruct Hrun as [-> _]. reflexivity.
  - intros s self Hrun. apply Hr in Hrun. destruct Hrun as (_ & -> & _). reflexivity.
Qed.

Lemma grid_keeps_its_shape_witness :
  grid_shape [[65; 65; 34; 48; 48; 112; 64]]
  = map length (split_lines [34; 65; 34; 48; 48; 112; 64]).
Proof.
  apply (proj1 (grid_keeps_its_shape (fun _ => O) [34; 65; 34; 48; 48; 112; 64] 10)
           (mkMachine
              (mkInterpreter (mkLexer [[65; 65; 34; 48; 48; 112; 64]] 6 0 1 0) [] [])
              AtLoop 0)).
  reflexivity.
Defined.

(** X10: the output is append-only.  Whatever a machine has written stays,
    unaltered, at the front of what any later machine of the run has
    written, and the string [interpret] returns is the concatenation of the
    units written: it begins with the text written so far. *)
Theorem output_is_append_only (random : nat -> nat) (n : nat) (m : Machine) :
  (forall m', run random n m = Continue m' ->
     exists extra, _output (interpreter m') = _output (interpreter m) ++ extra) /\
  (forall s self, run random n m = Return s self ->
     s = join (_output self) /\
     exists extra, s = join (_output (interpreter m)) ++ join extra).
Proof.
  destruct (run_keeps random n m) as [Hc Hr]. split.
  - intros m' Hrun. apply Hc in Hrun. tauto.
  - intros s self Hrun. apply Hr in Hrun. destruct Hrun as (Hs & _ & extra & He).
    split; [exact Hs|]. exists extra. rewrite Hs, He. unfold join. apply concat_app.
Qed.

Lemma output_is_append_only_witness :
  exists extra, of_string "21" = join [of_string "2"] ++ join extra.
Proof.
  apply (proj2 (output_is_append_only (fun _ => O) 4
                  (mkMachine
                     (mkInterpreter (mkLexer [of_string "12..@"] 3 0 1 0) [1] [of_string "2"])
                     AtLoop 0))
           (of_string "21")
           (mkInterpreter (mkLexer [of_string "12..@"] 4 0 1 0) [] [of_string "2"; of_string "1"])).
  reflexivity.
Defined.

(** ** Reading the source text *)

Lemma split_lines_nonempty (s : list Z) : exists line lines, split_lines s = line :: lines.
Proof.
  destruct s as [|c s]; cbn [split_lines]; [eauto|].
  destruct (c =? 10); [eauto|]. destruct (split_lines s); eauto.
Qed.

Lemma unlines_cons_char (c : Z) (line : list Z) (lines : list (list Z)) :
  unlines ((c :: line) :: lines) = c :: unlines (line :: lines).
Proof. destruct lines; reflexivity. Qed.

Lemma unlines_split_lines (s : list Z) : unlines (split_lines s) = s.
Proof.
  induction s as [|c s IH]; [reflexivity|].
  cbn [split_lines].
  destruct (split_lines_nonempty s) as (line & lines & E). rewrite E in *.
  destruct (Z.eqb_spec c 10) as [->|_].
  - change (unlines ([] :: line :: lines)) with (10 :: unlines (line :: lines)).
    rewrite IH. reflexivity.
  - rewrite unlines_cons_char, IH. reflexivity.
Qed.

Lemma split_lines_rows (s : list Z) : Forall (Forall (fun c => c <> 10)) (split_lines s).
Proof.
  induction s as [|c s IH]; [repeat constructor|].
  cbn [split_lines].
  destruct (Z.eqb_spec c 10) as [->|Hc]; [constructor; [constructor|exact IH]|].
  destruct (split_lines s) as [|line lines]; [repeat constructor; assumption|].
  inversion IH; subst. constructor; [constructor|]; assumption.
Qed.

Lemma split_lines_count (s : list Z) :
  length (split_lines s) = S (count_occ Z.eq_dec s 10).
Proof.
  induction s as [|c s IH]; [reflexivity|].
  cbn [split_lines count_occ].
  destruct (Z.eqb_spec c 10) as [->|Hc].
  - destruct (Z.eq_dec 10 10); [|contradiction]. cbn [length]. rewrite IH. reflexivity.
  - destruct (Z.eq_dec c 10); [contradiction|].
    destruct (split_lines_nonempty s) as (line & lines & E). rewrite E in *.
    exact IH.
Qed.

Lemma split_lines_app (line rest : list Z) :
  Forall (fun c => c <> 10) line ->
  split_lines (line ++ 10 :: rest) = line :: split_lines rest.
Proof.
  induction 1 as [|c line Hc _ IH]; [reflexivity|].
  cbn [app split_lines]. destruct (Z.eqb_spec c 10); [contradiction|].
  rewrite IH. reflexivity.
Qed.

Lemma split_lines_unlines (lines : list (list Z)) :
  lines <> [] ->
  Forall (Forall (fun c => c <> 10)) lines ->
  split_lines (unlines lines) = lines.
Proof.
  intros Hne H. induction H as [|line lines Hline Hlines IH]; [contradiction|].
  destruct lines as [|line2 lines].
  - apply split_lines_one_line, Hline.
  - change (unlines (line :: line2 :: lines)) with (line ++ 10 :: unlines (line2 :: lines)).
    rewrite split_lines_app by assumption.
    f_equal. apply IH. discriminate.
Qed.

(** X11: [Lexer.read] cuts the source at its line feeds and nowhere else.
    The grid read from a text has one more row than the text has line
    feeds, no row holds a line feed, and the rows joined by line feeds give
    the text back; conversely the grid read from rows joined by line feeds
    is those rows.  The empty text gives one empty row. *)
Theorem read_splits_at_line_feeds (str : list Z) (lines : list (list Z)) :
  unlines (program (read Lexer_init str)) = str /\
  length (program (read Lexer_init str)) = S (count_occ Z.eq_dec str 10) /\
  Forall (Forall (fun c => c <> 10)) (program (read Lexer_init str)) /\
  program (read Lexer_init []) = [[]] /\
  (lines <> [] -> Forall (Forall (fun c => c <> 10)) lines ->
   program (read Lexer_init (unlines lines)) = lines).
Proof.
  unfold read. cbn [program Lexer_init app].
  split; [apply unlines_split_lines|].
  split; [apply split_lines_count|].
  split; [apply split_lines_rows|].
  split; [reflexivity|].
  apply split_lines_unlines.
Qed.

Lemma read_splits_at_line_feeds_witness :
  program (read Lexer_init (unlines [of_string "v"; []; of_string "@ "]))
  = [of_string "v"; []; of_string "@ "].
Proof.
  refine (proj2 (proj2 (proj2 (proj2
            (read_splits_at_line_feeds [] [of_string "v"; []; of_string "@ "])))) _ _).
  - discriminate.
  - repeat constructor; discriminate.
Defined.

(** ** Errors of the commands *)

Lemma list_last_cases {A} (l : list A) : l = [] \/ exists rest a, l = rest ++ [a].
Proof.
  destruct l as [|a l] using rev_ind; [left; reflexivity | right; eauto].
Qed.

(** X12: on an empty stack a command raises [IndexError] exactly when its
    [execute] begins with a [pop]; the others ([:] among them) succeed.  The
    binary operators, [p] and [g] also raise on a stack of one value, and
    [p] on a stack of two: no default stands in for their operands. *)
Theorem empty_stack_raises_iff_pop (r : nat) (cls : Command) (lx : Lexer)
    (out : list (list Z)) (a b : Z) :
  (execute r cls (mkInterpreter lx [] out) = Raise IndexError <-> In cls popping_commands) /\
  (~ In cls popping_commands -> exists self', execute r cls (mkInterpreter lx [] out) = OK self') /\
  (In cls [Plus; Minus; Multiply; Div; GreaterThan; Mod; Put; Get] ->
   execute r cls (mkInterpreter lx [a] out) = Raise IndexError) /\
  execute r Put (mkInterpreter lx [b; a] out) = Raise IndexError.
Proof.
  split; [|split; [|split]].
  - destruct cls;
      try (split; [intros _; cbn; tauto | intros _; reflexivity]);
      try (split; [cbn; discriminate | cbn; intros H; exfalso; intuition discriminate]).
    split; [|cbn; intros H; exfalso; intuition discriminate].
    destruct (execute_ChooseRandomDirection r (mkInterpreter lx [] out)) as [s ->].
    discriminate.
  - intros H. destruct cls; try (exfalso; apply H; cbn; tauto); try (eexists; reflexivity).
    apply execute_ChooseRandomDirection.
  - intros H. cbn in H. destruct H as [<-|[<-|[<-|[<-|[<-|[<-|[<-|[<-|[]]]]]]]]]; reflexivity.
  - reflexivity.
Qed.

Lemma empty_stack_raises_iff_pop_witness :
  execute 0 Get (mkInterpreter Lexer_init [5] []) = Raise IndexError.
Proof.
  refine (proj1 (proj2 (proj2
            (empty_stack_raises_iff_pop 0 Get Lexer_init [] 5 5))) _).
  cbn. tauto.
Defined.

Lemma execute_OutputAscii r lx out rest v :
  execute r OutputAscii (mkInterpreter lx (rest ++ [v]) out)
  = (s ← format_c v; OK (mkInterpreter lx rest (out ++ [s]))).
Proof. cbn [execute]. rewrite pop_app. reflexivity. Qed.

(** X13: character codes outside [0, 0x10FFFF].  [,] run on such a code
    raises [OverflowError] and on a code inside writes the one-character
    string of it; [p] run on such a code raises before it looks at the
    coordinates, [ValueError] when the code fits a C int and [OverflowError]
    beyond, the grid being left alone. *)
Theorem character_codes_out_of_range (r : nat) (lx : Lexer) (rest : list Z)
    (v x y : Z) (out : list (list Z)) :
  (0 <= v < 1114112 ->
   execute r OutputAscii (mkInterpreter lx (rest ++ [v]) out)
   = OK (mkInterpreter lx rest (out ++ [[v]]))) /\
  (~ 0 <= v < 1114112 ->
   execute r OutputAscii (mkInterpreter lx (rest ++ [v]) out) = Raise OverflowError /\
   execute r Put (mkInterpreter lx (rest ++ [v; x; y]) out)
   = Raise (if (-2147483648 <=? v) && (v <? 2147483648) then ValueError else OverflowError)).
Proof.
  split.
  - intros Hv. rewrite execute_OutputAscii. unfold format_c.
    destruct (Z.leb_spec 0 v), (Z.ltb_spec v 1114112); try lia. reflexivity.
  - intros Hv. rewrite execute_OutputAscii, execute_Put. unfold format_c, chr.
    destruct (Z.leb_spec 0 v), (Z.ltb_spec v 1114112); try lia; cbn [andb];
      (split; [reflexivity|]);
      destruct ((-2147483648 <=? v) && (v <? 2147483648)); reflexivity.
Qed.

Lemma character_codes_out_of_range_witness :
  execute 0 OutputAscii (mkInterpreter Lexer_init ([] ++ [-1]) []) = Raise OverflowError /\
  execute 0 Put (mkInterpreter Lexer_init ([] ++ [-1; 7; 7]) [])
  = Raise (if (-2147483648 <=? -1) && (-1 <? 2147483648) then ValueError else OverflowError).
Proof.
  apply (proj2 (character_codes_out_of_range 0 Lexer_init [] (-1) 7 7 [])).
  lia.
Defined.

Lemma cell_off_grid (lx : Lexer) (y x : Z) :
  (y < - Z.of_nat (length (program lx)) \/ Z.of_nat (length (program lx)) <= y) \/
  (exists row, getitem (program lx) y = OK row /\
               (x < - Z.of_nat (length row) \/ Z.of_nat (length row) <= x)) ->
  cell lx y x = Raise IndexError.
Proof.
  intros [Hy | (row & Hrow & Hx)]; unfold cell.
  - rewrite getitem_out_of_range by assumption. reflexivity.
  - rewrite Hrow. cbn. apply getitem_out_of_range. assumption.
Qed.

(** X14: coordinates off the grid.  When the row index is not within
    [-rows .. rows-1], or the column index not within [-len .. len-1] of the
    row, [g] raises [IndexError], and so does [p] for a valid character
    code: a cell outside the grid is neither read as a default nor created.
    (The scanner treats the same read as the end of the program.) *)
Theorem off_grid_coordinates_raise (r : nat) (lx : Lexer) (rest : list Z)
    (v x y : Z) (out : list (list Z)) :
  (y < - Z.of_nat (length (program lx)) \/ Z.of_nat (length (program lx)) <= y) \/
  (exists row, getitem (program lx) y = OK row /\
               (x < - Z.of_nat (length row) \/ Z.of_nat (length row) <= x)) ->
  execute r Get (mkInterpreter lx (rest ++ [x; y]) out) = Raise IndexError /\
  (0 <= v < 1114112 ->
   execute r Put (mkInterpreter lx (rest ++ [v; x; y]) out) = Raise IndexError).
Proof.
  intros H. split.
  - rewrite execute_Get, (cell_off_grid lx y x H). reflexivity.
  - intros Hv. rewrite execute_Put, chr_valid by assumption. cbn.
    unfold set_cell. destruct H as [Hy | (row & Hrow & Hx)].
    + rewrite (getitem_out_of_range (program lx) y Hy). reflexivity.
    + rewrite Hrow. cbn. unfold setitem.
      rewrite (index_out_of_range (length row) x Hx). reflexivity.
Qed.

Lemma off_grid_coordinates_raise_witness :
  execute 0 Get (mkInterpreter (mkLexer [of_string "12"; of_string "3"] 0 0 1 0) ([] ++ [1; 1]) [])
  = Raise IndexError /\
  execute 0 Put (mkInterpreter (mkLexer [of_string "12"; of_string "3"] 0 0 1 0)
                               ([] ++ [65; 1; 1]) [])
  = Raise IndexError.
Proof.
  destruct (off_grid_coordinates_raise 0 (mkLexer [of_string "12"; of_string "3"] 0 0 1 0)
              [] 65 1 1 []) as [Hg Hp].
  - right. exists (of_string "3"). split; [reflexivity | cbn; lia].
  - split; [exact Hg | apply Hp; lia].
Defined.

(** ** Stack commands in sequence *)

(** X15: how the stack commands compose.  [:] followed by [$] restores
    every stack, the empty one included; [\] twice restores a stack of two
    or more values; [!] twice leaves 0 for 0 and 1 for any other value;
    [:] followed by [-] replaces the top by 0. *)
Theorem stack_commands_compose (r : nat) (lx : Lexer) (d rest : list Z) (a b : Z)
    (out : list (list Z)) :
  (self ← execute r Duplicate (mkInterpreter lx d out); execute r Discard self)
  = OK (mkInterpreter lx d out) /\
  (self ← execute r Swap (mkInterpreter lx (rest ++ [b; a]) out); execute r Swap self)
  = OK (mkInterpreter lx (rest ++ [b; a]) out) /\
  (self ← execute r Not (mkInterpreter lx (rest ++ [a]) out); execute r Not self)
  = OK (mkInterpreter lx (rest ++ [if a =? 0 then 0 else 1]) out) /\
  (self ← execute r Duplicate (mkInterpreter lx (rest ++ [a]) out); execute r Minus self)
  = OK (mkInterpreter lx (rest ++ [0]) out).
Proof.
  assert (Hswap : forall u w,
            execute r Swap (mkInterpreter lx (rest ++ [u; w]) out)
            = OK (mkInterpreter lx (rest ++ [w; u]) out)).
  { intros u w. cbn [execute].
    change (rest ++ [u; w]) with (rest ++ [u] ++ [w]).
    rewrite app_assoc, pop_app. cbn. rewrite pop_app. cbn.
    unfold push, set_data, append. cbn. rewrite <- app_assoc. reflexivity. }
  assert (Hdup : forall u,
            execute r Duplicate (mkInterpreter lx (rest ++ [u]) out)
            = OK (mkInterpreter lx ((rest ++ [u]) ++ [u]) out)).
  { intros u. cbn [execute]. rewrite peek_app. reflexivity. }
  repeat split.
  - destruct (list_last_cases d) as [->|(l & u & ->)].
    + reflexivity.
    + cbn [execute]. rewrite peek_app. cbn. unfold push, set_data, append. cbn.
      rewrite pop_app. reflexivity.
  - rewrite Hswap. cbn. apply Hswap.
  - cbn [execute]. rewrite pop_app. cbn. unfold push, set_data, append. cbn.
    rewrite pop_app. cbn. destruct (a =? 0); reflexivity.
  - rewrite Hdup. cbn. unfold BinaryOperator_execute.
    rewrite <- app_assoc. cbn [app]. rewrite pop2_app. cbn.
    unfold push, set_data, append. cbn. rewrite Z.sub_diag. reflexivity.
Qed.

(** ** More on scanning *)

(** X16: a read before the grid ends the program as a read past it does.
    When normal scanning reads at a row index below [-rows], or at a column
    index below [-len] of its row, the scanner yields the end-of-program
    token: a cursor that leaves the grid leftwards or upwards first runs
    over the wrapped cells, then halts.  The loop formats the stack for its
    log message first: when every integer on the stack is within the digit
    limit the run returns the output written so far, the interpreter being
    left as it was; otherwise that message raises [ValueError]. *)
Theorem scan_before_bounds_ends_program (random : nat -> nat) (self : BefungeInterpreter)
    (n fuel : nat) :
  (ypos (lexer self) < - Z.of_nat (length (program (lexer self))) \/
   exists row, getitem (program (lexer self)) (ypos (lexer self)) = OK row /\
               xpos (lexer self) < - Z.of_nat (length row)) ->
  tokens AtLoop (lexer self) = Yields EofToken AfterEof /\
  run random (S (S fuel)) (mkMachine self AtLoop n)
  = if forallb within_str_digits (_data self)
    then Return (join (_output self)) self
    else Abort ValueError.
Proof.
  intros H.
  assert (Hc : current_character (lexer self) = Raise IndexError).
  { unfold current_character. apply cell_off_grid.
    destruct H as [Hy | (row & Hrow & Hx)].
    - left. left. exact Hy.
    - right. exists row. split; [exact Hrow|]. left. exact Hx. }
  split.
  - unfold current_character in Hc. unfold tokens. rewrite Hc. reflexivity.
  - apply run_end_of_program, Hc.
Qed.

Lemma scan_before_bounds_ends_program_witness :
  tokens AtLoop (mkLexer [of_string "1."] (-3) 0 (-1) 0) = Yields EofToken AfterEof /\
  run (fun _ => O) 2
    (mkMachine (mkInterpreter (mkLexer [of_string "1."] (-3) 0 (-1) 0) [7] [of_string "1"])
               AtLoop 0)
  = if forallb within_str_digits [7]
    then Return (of_string "1")
           (mkInterpreter (mkLexer [of_string "1."] (-3) 0 (-1) 0) [7] [of_string "1"])
    else Abort ValueError.
Proof.
  apply (scan_before_bounds_ends_program (fun _ => O)
           (mkInterpreter (mkLexer [of_string "1."] (-3) 0 (-1) 0) [7] [of_string "1"]) 0 0).
  right. exists (of_string "1."). split; [reflexivity | cbn; lia].
Defined.

(** X17: the grid is the program.  A command character written by [p] into
    a cell of the grid is scanned as source text: with the cursor on that
    cell the scanner yields the command token of that character, which the
    parser resolves to the command's class. *)
Theorem written_command_is_scanned (r : nat) (lx : Lexer) (y x : Z) (row : list Z)
    (rest : list Z) (out : list (list Z)) (cls : Command) :
  - Z.of_nat (length (program lx)) <= y < Z.of_nat (length (program lx)) ->
  program lx !! wrapped (length (program lx)) y = Some row ->
  - Z.of_nat (length row) <= x < Z.of_nat (length row) ->
  exists lx',
    execute r Put (mkInterpreter lx (rest ++ [token cls; x; y]) out)
    = OK (mkInterpreter lx' rest out) /\
    forall ddx ddy,
      tokens AtLoop (mkLexer (program lx') x y ddx ddy)
      = Yields (CommandToken (token cls)) AfterToken /\
      get_command (token cls) = cls.
Proof.
  intros Hy Hrow Hx.
  assert (Hv : 0 <= token cls < 1114112) by (destruct cls; cbv; split; congruence).
  destruct (set_cell lx y x (token cls)) as [lx'|e] eqn:Hset.
  - exists lx'. split.
    + rewrite execute_Put, chr_valid by assumption. cbn. rewrite Hset. reflexivity.
    + intros ddx ddy. split; [|apply get_command_token].
      pose proof (cell_after_set_cell lx y x row Hy Hrow Hx (token cls) lx' Hset) as Hc.
      unfold tokens. cbn [xpos ypos].
      assert (Hc' : cell (mkLexer (program lx') x y ddx ddy) y x = OK (token cls)).
      { unfold cell in *. cbn [program]. exact Hc. }
      rewrite Hc', isdigit_token, token_not_quote, command_lexemes_token. reflexivity.
  - rewrite (set_cell_wrapped lx y x row Hy Hrow Hx) in Hset. discriminate.
Qed.

Lemma written_command_is_scanned_witness :
  exists lx',
    execute 0 Put (mkInterpreter (mkLexer [of_string "12"] 0 0 1 0)
                                 ([] ++ [token End_; 1; 0]) [])
    = OK (mkInterpreter lx' [] []) /\
    forall ddx ddy,
      tokens AtLoop (mkLexer (program lx') 1 0 ddx ddy)
      = Yields (CommandToken (token End_)) AfterToken /\
      get_command (token End_) = End_.
Proof.
  apply (written_command_is_scanned 0 (mkLexer [of_string "12"] 0 0 1 0) 0 1
           (of_string "12") [] [] End_).
  - cbn. lia.
  - reflexivity.
  - cbn. lia.
Defined.

Lemma decimal_value_range (c n : Z) : decimal_value c = Some n -> 0 <= n <= 9.
Proof.
  unfold decimal_value.
  destruct (List.find (fun z => (z <=? c) && (c <? z + 10)) decimal_zeros) as [z|] eqn:E;
    [|discriminate].
  intros [= <-]. apply find_some in E. destruct E as [_ E].
  apply andb_true_iff in E. destruct E as [E1 E2].
  apply Z.leb_le in E1. apply Z.ltb_lt in E2. lia.
Qed.

(** X18: a digit token carries a value from 0 to 9.  The scanner yields it
    only in normal mode, for a character that [isdigit] accepts and [int]
    converts; for an ASCII digit the value is its code minus 48.  A
    character that [isdigit] accepts and [int] does not convert makes the
    scanner raise [ValueError]. *)
Theorem digit_token_values (k k' : Suspension) (lx : Lexer) (n : Z) :
  (tokens k lx = Yields (DigitToken n) k' ->
   k = AtLoop /\ k' = AfterToken /\ 0 <= n <= 9 /\
   exists c, current_character lx = OK c /\ isdigit c = true /\ int c = OK n /\
             (48 <= c <= 57 -> n = c - 48)) /\
  (forall c, current_character lx = OK c -> isdigit c = true -> decimal_value c = None ->
             tokens AtLoop lx = Raises ValueError).
Proof.
  split.
  - unfold tokens, current_character. intros H. destruct k; try discriminate.
    + destruct (cell lx (ypos lx) (xpos lx)) as [c|e] eqn:Hc.
      * destruct (isdigit c) eqn:Hd.
        -- destruct (int c) as [v|e] eqn:Hi; [|discriminate].
           injection H as -> <-.
           split; [reflexivity|]. split; [reflexivity|].
           unfold int in Hi.
           destruct (decimal_value c) as [v|] eqn:Hv; [|discriminate].
           injection Hi as ->.
           split; [eapply decimal_value_range, Hv|].
           exists c. repeat split.
           ++ exact Hd.
           ++ unfold int. rewrite Hv. reflexivity.
           ++ intros Hr. rewrite (decimal_value_ascii c Hr) in Hv. congruence.
        -- destruct (c =? quote); [discriminate|].
           destruct (command_lexemes c); discriminate.
      * destruct e; discriminate.
    + destruct (cell lx (ypos lx) (xpos lx)) as [c|e] eqn:Hc.
      * destruct (c =? quote); discriminate.
      * destruct e; discriminate.
  - intros c Hc Hd Hv. unfold tokens. unfold current_character in Hc.
    rewrite Hc, Hd. unfold int. rewrite Hv. reflexivity.
Qed.

Lemma digit_token_values_witness :
  tokens AtLoop (mkLexer [[178]] 0 0 1 0) = Raises ValueError.
Proof.
  apply (proj2 (digit_token_values AtLoop AtLoop (mkLexer [[178]] 0 0 1 0) 0) 178).
  - reflexivity.
  - reflexivity.
  - reflexivity.
Defined.

(** ** The stack in the log messages *)

Lemma step_end_of_program (random : nat -> nat) (self : BefungeInterpreter) (n : nat) :
  current_character (lexer self) = Raise IndexError ->
  step random (mkMachine self AtLoop n)
  = if forallb within_str_digits (_data self)
    then Continue (mkMachine self AfterEof n)
    else Abort ValueError.
Proof.
  intros Hc. unfold current_character in Hc.
  unfold step. cbn [interpreter generator draws].
  unfold tokens. rewrite Hc. cbn [on_token].
  unfold format_list. destruct (forallb within_str_digits (_data self)); reflexivity.
Qed.

Lemma step_End (random : nat -> nat) (self : BefungeInterpreter) (n : nat) :
  current_character (lexer self) = OK (token End_) ->
  step random (mkMachine self AtLoop n)
  = if forallb within_str_digits (_data self)
    then Return (join (_output self)) self
    else Abort ValueError.
Proof.
  intros Hc. unfold current_character in Hc.
  unfold step. cbn [interpreter generator draws].
  unfold tokens. rewrite Hc, isdigit_token, token_not_quote, command_lexemes_token.
  cbn [on_token]. rewrite get_command_token.
  destruct (decide (End_ = End_)); [|contradiction].
  unfold format_list. destruct (forallb within_str_digits (_data self)); reflexivity.
Qed.

(** An integer of at least 14285 bits is beyond the digit limit. *)
Lemma beyond_str_digits (w : Z) : 2 ^ 14285 <= w -> within_str_digits w = false.
Proof.
  intros Hw. unfold within_str_digits. apply Z.ltb_ge.
  assert (Hb : int_str_bound <= 2 ^ 14285) by (apply Z.leb_le; vm_compute; reflexivity).
  assert (H0 : 0 <= 2 ^ 14285) by (apply Z.pow_nonneg; lia).
  rewrite Z.abs_eq by (eapply Z.le_trans; eassumption).
  eapply Z.le_trans; eassumption.
Qed.

(** Squaring the top of the stack [k] times, by [k] pairs [:*]: the value
    grows at least as the squares of a power of two below it. *)
Lemma squares_phase (random : nat -> nat) p y (row : list Z) (n : nat) (k : nat) :
  forall pre tail base out v a,
    getitem p y = OK row ->
    row = pre ++ concat (repeat [code ":"; code "*"] k) ++ tail ->
    0 <= a ->
    2 ^ a <= v ->
    exists w,
      2 ^ (a * 2 ^ Z.of_nat k) <= w /\
      run random (4 * k)
        (mkMachine (mkInterpreter (mkLexer p (Z.of_nat (length pre)) y 1 0) (base ++ [v]) out)
                   AtLoop n)
      = Continue
          (mkMachine
             (mkInterpreter (mkLexer p (Z.of_nat (length pre + 2 * k)) y 1 0) (base ++ [w]) out)
             AtLoop n).
Proof.
  induction k as [|k IH]; intros pre tail base out v a Hrow Hsplit Ha Hv.
  - exists v. split.
    + change (Z.of_nat 0) with 0. rewrite Z.pow_0_r, Z.mul_1_r. exact Hv.
    + change (4 * 0)%nat with O. cbn [run]. rewrite Nat.add_0_r. reflexivity.
  - assert (Hdup :
      run random 2
        (mkMachine (mkInterpreter (mkLexer p (Z.of_nat (length pre)) y 1 0) (base ++ [v]) out)
                   AtLoop n)
      = Continue
          (mkMachine
             (mkInterpreter (mkLexer p (Z.of_nat (length (pre ++ [code ":"]))) y 1 0)
                            (base ++ [v; v]) out)
             AtLoop n)).
    { rewrite (cycle_command random _
                 (mkInterpreter (mkLexer p (Z.of_nat (length pre)) y 1 0) (base ++ [v; v]) out)
                 n Duplicate); [| |discriminate|].
      - unfold set_lexer, advance.
        cbn [lexer _data _output program xpos ypos dx dy].
        case_decide; [discriminate|].
        rewrite length_app. cbn [length]. do 3 f_equal. f_equal; lia.
      - cbn [lexer]. eapply (cell_middle p y 1 0 row pre); [exact Hrow|].
        rewrite Hsplit. cbn [repeat concat app]. reflexivity.
      - cbn [execute]. rewrite peek_app. cbn. unfold push, set_data, append. cbn.
        rewrite <- app_assoc. reflexivity. }
    assert (Hmul :
      run random 2
        (mkMachine
           (mkInterpreter (mkLexer p (Z.of_nat (length (pre ++ [code ":"]))) y 1 0)
                          (base ++ [v; v]) out)
           AtLoop n)
      = Continue
          (mkMachine
             (mkInterpreter
                (mkLexer p (Z.of_nat (length ((pre ++ [code ":"]) ++ [code "*"]))) y 1 0)
                (base ++ [v * v]) out)
             AtLoop n)).
    { rewrite (cycle_command random _
                 (mkInterpreter (mkLexer p (Z.of_nat (length (pre ++ [code ":"]))) y 1 0)
                                (base ++ [v * v]) out)
                 n Multiply); [| |discriminate|].
      - unfold set_lexer, advance.
        cbn [lexer _data _output program xpos ypos dx dy].
        case_decide; [discriminate|].
        rewrite !length_app. cbn [length]. do 3 f_equal. f_equal; lia.
      - cbn [lexer]. eapply (cell_middle p y 1 0 row (pre ++ [code ":"])); [exact Hrow|].
        rewrite Hsplit. cbn [repeat concat app]. rewrite <- app_assoc. reflexivity.
      - cbn [execute]. unfold BinaryOperator_execute. rewrite pop2_app. reflexivity. }
    assert (Hvv : 2 ^ (a + a) <= v * v).
    { rewrite Z.pow_add_r by assumption.
      assert (0 <= 2 ^ a) by (apply Z.pow_nonneg; lia).
      apply Z.mul_le_mono_nonneg; assumption. }
    destruct (IH ((pre ++ [code ":"]) ++ [code "*"]) tail base out (v * v) (a + a) Hrow)
      as (w & Hw & Hrun); [| lia | exact Hvv |].
    + rewrite Hsplit. cbn [repeat concat app]. rewrite <- !app_assoc. reflexivity.
    + exists w. split.
      * replace (a * 2 ^ Z.of_nat (S k)) with ((a + a) * 2 ^ Z.of_nat k); [exact Hw|].
        rewrite Nat2Z.inj_succ, Z.pow_succ_r by lia. ring.
      * replace (4 * S k)%nat with (2 + (2 + 4 * k))%nat by lia.
        rewrite run_add, Hdup, run_add, Hmul, Hrun.
        rewrite !length_app. cbn [length]. do 3 f_equal. f_equal. lia.
Qed.

Lemma squares_reach_beyond_str_digits (random : nat -> nat) (tail : list Z) :
  exists w,
    within_str_digits w = false /\
    run random 54
      (mkMachine
         (mkInterpreter
            (mkLexer [[code "9"] ++ concat (repeat [code ":"; code "*"] 13) ++ tail] 0 0 1 0)
            [] [])
         AtLoop 0)
    = Continue
        (mkMachine
           (mkInterpreter
              (mkLexer [[code "9"] ++ concat (repeat [code ":"; code "*"] 13) ++ tail] 27 0 1 0)
              [w] [])
           AtLoop 0).
Proof.
  set (src := [code "9"] ++ concat (repeat [code ":"; code "*"] 13) ++ tail).
  assert (Hrow : getitem [src] 0 = OK src) by reflexivity.
  assert (Hnine :
    run random 2 (mkMachine (mkInterpreter (mkLexer [src] 0 0 1 0) [] []) AtLoop 0)
    = Continue
        (mkMachine
           (mkInterpreter (mkLexer [src] (Z.of_nat (length [code "9"])) 0 1 0) ([] ++ [9]) [])
           AtLoop 0)).
  { rewrite (cycle_digit random _ 0 (code "9")); [reflexivity|reflexivity|].
    split; [apply Z.leb_le | apply Z.leb_le]; reflexivity. }
  destruct (squares_phase random [src] 0 src 0 13 [code "9"] tail [] [] 9 3 Hrow eq_refl)
    as (w & Hw & Hrun); [lia | apply Z.leb_le; reflexivity |].
  exists w. split.
  - apply beyond_str_digits. eapply Z.le_trans; [|exact Hw].
    apply Z.pow_le_mono_r; [lia|]. apply Z.leb_le. reflexivity.
  - change 54%nat with (2 + 4 * 13)%nat. rewrite run_add, Hnine, Hrun. reflexivity.
Qed.

(** C1, against the code: the program [9:*:*:*:*:*:*:*:*:*:*:*:*:*] squares
    9 thirteen times and runs off the end of its row.  The end-of-program
    token is yielded, but the run does not return its (empty) output: the
    message logged for that token formats the stack, whose integer has more
    than 4300 digits, and [ValueError] leaves [interpret]. *)
Theorem scan_past_bounds_raises_on_long_integer (random : nat -> nat) :
  interpret random 55 (of_string "9:*:*:*:*:*:*:*:*:*:*:*:*:*") = Abort ValueError.
Proof.
  destruct (squares_reach_beyond_str_digits random []) as (w & Hw & Hrun).
  change (interpret random 55 (of_string "9:*:*:*:*:*:*:*:*:*:*:*:*:*"))
    with (run random (54 + 1)
            (mkMachine
               (mkInterpreter
                  (mkLexer [[code "9"] ++ concat (repeat [code ":"; code "*"] 13) ++ []]
                           0 0 1 0)
                  [] [])
               AtLoop 0)).
  rewrite run_add, Hrun. cbn [run].
  rewrite step_end_of_program by reflexivity.
  cbn [_data forallb]. rewrite Hw. reflexivity.
Qed.

(** C2, against the code: the program [9:*:*:*:*:*:*:*:*:*:*:*:*:*@] squares
    9 thirteen times and reaches the halt command.  The command is not
    executed, but the run does not halt with its (empty) output: the message
    logged for the halt command formats the stack, whose integer has more
    than 4300 digits, and [ValueError] leaves [interpret]. *)
Theorem End_raises_on_long_integer (random : nat -> nat) :
  interpret random 55 (of_string "9:*:*:*:*:*:*:*:*:*:*:*:*:*@") = Abort ValueError.
Proof.
  destruct (squares_reach_beyond_str_digits random [code "@"]) as (w & Hw & Hrun).
  change (interpret random 55 (of_string "9:*:*:*:*:*:*:*:*:*:*:*:*:*@"))
    with (run random (54 + 1)
            (mkMachine
               (mkInterpreter
                  (mkLexer [[code "9"] ++ concat (repeat [code ":"; code "*"] 13)
                              ++ [code "@"]]
                           0 0 1 0)
                  [] [])
               AtLoop 0)).
  rewrite run_add, Hrun. cbn [run].
  rewrite step_End by reflexivity.
  cbn [_data forallb]. rewrite Hw. reflexivity.
Qed.
